(** * Financial calculations of js/calculations.js: a shallow embedding

    The module [Calculations] is a set of pure functions over JavaScript
    numbers.  Every function is embedded once, over an interface [Number]
    of the arithmetic the source uses ([+ - * /], [===], [>], [Math.max]),
    and the interface is given two interpretations:

    - [binary64]: IEEE-754 double precision, the numbers the program runs
      on (Rocq's primitive floats), with signed zeros, infinities and NaN.
      It computes, so the code can be run on concrete inputs;
    - [exactnum]: real arithmetic in which a division by zero (and anything
      computed from one) is [None] instead of an infinity or a NaN.  A
      result [Some v] says that no division by zero occurred and that the
      formulas give [v] when no rounding takes place.

    Equalities that hold for the formulas are proved in [exactnum]; what the
    program returns on a given input is computed in [binary64].

    The term of a loan and the number of paid installments are counts
    ([nat]): the schedules loop over them and use them as exponents. *)

From Stdlib Require Import List Bool Arith ZArith Lia.
From Stdlib Require Import Reals Lra Psatz.
From Stdlib Require Import Floats Uint63.
Import ListNotations.

Set Warnings "-inexact-float".

(** ** JavaScript numbers *)

Class Number (N : Type) : Type := {
  of_nat : nat -> N;            (* an integer literal or count as a number *)
  add : N -> N -> N;
  sub : N -> N -> N;
  mul : N -> N -> N;
  div : N -> N -> N;
  strict_eq : N -> N -> bool;   (* x === y *)
  gt : N -> N -> bool;          (* x > y *)
  Math_max : N -> N -> N;
  NaN : N                       (* what [undefined] is when used as a number *)
}.

Declare Scope js_scope.
Delimit Scope js_scope with js.
Infix "+" := add : js_scope.
Infix "-" := sub : js_scope.
Infix "*" := mul : js_scope.
Infix "/" := div : js_scope.
Infix "===" := strict_eq (at level 70, no associativity) : js_scope.
Infix ">" := gt : js_scope.
Notation "# n" := (of_nat n) (at level 1, format "# n") : js_scope.

(** The platform's [Date], as far as [Utils.addMonths] uses it. *)
Class DateAPI (D : Type) : Type := {
  getMonth : D -> Z;
  setMonth : D -> Z -> D
}.

(** A JavaScript array read at an integer index: [undefined] out of range. *)
Definition array_get {A : Type} (l : list A) (i : Z) : option A :=
  if (i <? 0)%Z then None else nth_error l (Z.to_nat i).

Section Calculations.
Context {N : Type} `{Number N}.
Context {D : Type} `{DateAPI D}.
Local Open Scope js_scope.

(** [Math.pow] at an integer exponent, as a product.  On binary64 the
    platform's result is implementation-approximated; the product is what
    every platform returns for the bases 0, 1, -1 and 2 and for the
    exponents 0 and 1, the only cases in which the program is run on
    binary64 below. *)
Fixpoint Math_pow (x : N) (n : nat) : N :=
  match n with
  | O => #1
  | S n' => x * Math_pow x n'
  end.

(** The sum of an array, [xs.reduce((s, x) => s + x, 0)]. *)
Definition sum (xs : list N) : N := fold_left add xs #0.

(** [ToNumber] of an array element that may be [undefined]. *)
Definition to_number (o : option N) : N :=
  match o with Some x => x | None => NaN end.

(** utils.js, [Utils.addMonths]. *)
Definition addMonths (date : D) (months : Z) : D :=
  setMonth date (getMonth date + months)%Z.

(** *** Loan amortization *)

Record Row : Type := mkRow {
  number : nat;
  date : D;
  payment : N;
  interest : N;
  amortization : N;
  balance : N
}.

(** The body of the [for] loop of [generateSACTable]: [k] iterations are
    left, the next installment is number [i], and [balance] is the
    running (unclamped) balance. *)
Fixpoint SAC_loop (amortization monthlyRate : N) (startDate : D)
    (i : nat) (balance : N) (k : nat) : list Row :=
  match k with
  | O => []
  | S k' =>
      let interest := balance * monthlyRate in
      let payment := amortization + interest in
      let balance := balance - amortization in
      let paymentDate := addMonths startDate (Z.of_nat i - 1) in
      mkRow i paymentDate payment interest amortization (Math_max #0 balance)
        :: SAC_loop amortization monthlyRate startDate (S i) balance k'
  end.

Definition generateSACTable (principal annualRate : N) (months : nat)
    (startDate : D) : list Row :=
  let monthlyRate := annualRate / #12 in
  let amortization := principal / #months in
  SAC_loop amortization monthlyRate startDate 1 principal months.

Definition getSACRemainingBalance (principal : N) (months paidMonths : nat) : N :=
  let amortization := principal / #months in
  Math_max #0 (principal - amortization * #paidMonths).

Definition calculatePRICEPayment (principal annualRate : N) (months : nat) : N :=
  let monthlyRate := annualRate / #12 in
  if monthlyRate === #0 then principal / #months
  else
    principal * (monthlyRate * Math_pow (#1 + monthlyRate) months)
      / (Math_pow (#1 + monthlyRate) months - #1).

Fixpoint PRICE_loop (payment monthlyRate : N) (startDate : D)
    (i : nat) (balance : N) (k : nat) : list Row :=
  match k with
  | O => []
  | S k' =>
      let interest := balance * monthlyRate in
      let amortization := payment - interest in
      let balance := balance - amortization in
      let paymentDate := addMonths startDate (Z.of_nat i - 1) in
      mkRow i paymentDate payment interest amortization (Math_max #0 balance)
        :: PRICE_loop payment monthlyRate startDate (S i) balance k'
  end.

Definition generatePRICETable (principal annualRate : N) (months : nat)
    (startDate : D) : list Row :=
  let monthlyRate := annualRate / #12 in
  let payment := calculatePRICEPayment principal annualRate months in
  PRICE_loop payment monthlyRate startDate 1 principal months.

Definition getPRICERemainingBalance (principal annualRate : N)
    (months paidMonths : nat) : N :=
  let monthlyRate := annualRate / #12 in
  let payment := calculatePRICEPayment principal annualRate months in
  if (months <=? paidMonths)%nat then #0
  else
    let remainingMonths := (months - paidMonths)%nat in
    let balance :=
      payment * ((Math_pow (#1 + monthlyRate) remainingMonths - #1)
                 / (monthlyRate * Math_pow (#1 + monthlyRate) remainingMonths)) in
    Math_max #0 balance.

(** *** Property metrics *)

Definition calculateCapRate (noi propertyValue : N) : N :=
  if propertyValue === #0 then #0 else noi / propertyValue.

Definition calculateCashOnCash (annualCashFlow cashInvested : N) : N :=
  if cashInvested === #0 then #0 else annualCashFlow / cashInvested.

Definition calculateLTV (loanAmount propertyValue : N) : N :=
  if propertyValue === #0 then #0 else loanAmount / propertyValue.

Record Appreciation : Type := mkAppreciation {
  totalAppreciation : N;
  percentAppreciation : N;
  annualizedReturn : N
}.

(** [pow] is the platform's [Math.pow] at a fractional exponent, which
    the arithmetic of [Number] does not define. *)
Definition calculateAppreciation (pow : N -> N -> N)
    (purchasePrice currentValue years : N) : Appreciation :=
  let totalAppreciation := currentValue - purchasePrice in
  let percentAppreciation :=
    if purchasePrice > #0 then totalAppreciation / purchasePrice else #0 in
  let annualizedReturn :=
    if years > #0 then pow (currentValue / purchasePrice) (#1 / years) - #1
    else #0 in
  mkAppreciation totalAppreciation percentAppreciation annualizedReturn.

(** *** Statement builders

    The builders take an object whose fields are all optional; the
    destructuring [{ x = 0, ... } = data] reads an absent field as 0. *)

Definition default0 (field : option N) : N :=
  match field with Some x => x | None => #0 end.

Record DREData : Type := mkDREData {
  in_receitaBruta : option N;
  in_taxasPlataforma : option N;
  in_impostos : option N;
  in_custosVariaveis : option N;
  in_despesasFixas : option N;
  in_depreciacao : option N;
  in_despesasFinanceiras : option N;
  in_receitasFinanceiras : option N;
  in_ir : option N;
  in_csll : option N
}.

Record DRE : Type := mkDRE {
  receitaBruta : N;
  deducoes : N;
  receitaLiquida : N;
  custosVariaveis : N;
  lucroBruto : N;
  despesasFixas : N;
  ebitda : N;
  depreciacao : N;
  ebit : N;
  despesasFinanceiras : N;
  receitasFinanceiras : N;
  lair : N;
  ir : N;
  csll : N;
  lucroLiquido : N;
  margemBruta : N;
  margemEbitda : N;
  margemLiquida : N
}.

Definition calculateDRE (data : DREData) : DRE :=
  let receitaBruta := default0 (in_receitaBruta data) in
  let taxasPlataforma := default0 (in_taxasPlataforma data) in
  let impostos := default0 (in_impostos data) in
  let custosVariaveis := default0 (in_custosVariaveis data) in
  let despesasFixas := default0 (in_despesasFixas data) in
  let depreciacao := default0 (in_depreciacao data) in
  let despesasFinanceiras := default0 (in_despesasFinanceiras data) in
  let receitasFinanceiras := default0 (in_receitasFinanceiras data) in
  let ir := default0 (in_ir data) in
  let csll := default0 (in_csll data) in
  let deducoes := taxasPlataforma + impostos in
  let receitaLiquida := receitaBruta - deducoes in
  let lucroBruto := receitaLiquida - custosVariaveis in
  let ebitda := lucroBruto - despesasFixas in
  let ebit := ebitda - depreciacao in
  let lair := ebit - despesasFinanceiras + receitasFinanceiras in
  let lucroLiquido := lair - ir - csll in
  let margemBruta := if receitaBruta > #0 then lucroBruto / receitaBruta else #0 in
  let margemEbitda := if receitaBruta > #0 then ebitda / receitaBruta else #0 in
  let margemLiquida :=
    if receitaBruta > #0 then lucroLiquido / receitaBruta else #0 in
  mkDRE receitaBruta deducoes receitaLiquida custosVariaveis lucroBruto
    despesasFixas ebitda depreciacao ebit despesasFinanceiras
    receitasFinanceiras lair ir csll lucroLiquido
    margemBruta margemEbitda margemLiquida.

Record CashFlowData : Type := mkCashFlowData {
  in_recebimentos : option N;
  in_pagamentosOperacionais : option N;
  in_pagamentosImpostos : option N;
  in_aquisicoesAtivos : option N;
  in_vendasAtivos : option N;
  in_aportesCapital : option N;
  in_pagamentosFinanciamentos : option N;
  in_distribuicaoLucros : option N;
  in_saldoInicial : option N
}.

Record Operacional : Type := mkOperacional {
  recebimentos : N;
  pagamentosOperacionais : N;
  pagamentosImpostos : N;
  operacional_total : N
}.

Record Investimento : Type := mkInvestimento {
  aquisicoesAtivos : N;
  vendasAtivos : N;
  investimento_total : N
}.

Record Financiamento : Type := mkFinanciamento {
  aportesCapital : N;
  pagamentosFinanciamentos : N;
  distribuicaoLucros : N;
  financiamento_total : N
}.

Record CashFlow : Type := mkCashFlow {
  operacional : Operacional;
  investimento : Investimento;
  financiamento : Financiamento;
  saldoInicial : N;
  fluxoTotal : N;
  saldoFinal : N
}.

Definition calculateCashFlow (data : CashFlowData) : CashFlow :=
  let recebimentos := default0 (in_recebimentos data) in
  let pagamentosOperacionais := default0 (in_pagamentosOperacionais data) in
  let pagamentosImpostos := default0 (in_pagamentosImpostos data) in
  let aquisicoesAtivos := default0 (in_aquisicoesAtivos data) in
  let vendasAtivos := default0 (in_vendasAtivos data) in
  let aportesCapital := default0 (in_aportesCapital data) in
  let pagamentosFinanciamentos := default0 (in_pagamentosFinanciamentos data) in
  let distribuicaoLucros := default0 (in_distribuicaoLucros data) in
  let saldoInicial := default0 (in_saldoInicial data) in
  let fluxoOperacional := recebimentos - pagamentosOperacionais - pagamentosImpostos in
  let fluxoInvestimento := vendasAtivos - aquisicoesAtivos in
  let fluxoFinanciamento :=
    aportesCapital - pagamentosFinanciamentos - distribuicaoLucros in
  let fluxoTotal := fluxoOperacional + fluxoInvestimento + fluxoFinanciamento in
  let saldoFinal := saldoInicial + fluxoTotal in
  mkCashFlow
    (mkOperacional recebimentos pagamentosOperacionais pagamentosImpostos
       fluxoOperacional)
    (mkInvestimento aquisicoesAtivos vendasAtivos fluxoInvestimento)
    (mkFinanciamento aportesCapital pagamentosFinanciamentos distribuicaoLucros
       fluxoFinanciamento)
    saldoInicial fluxoTotal saldoFinal.

(** *** Valuation *)

Record DCF : Type := mkDCF {
  pvCashFlows : N;
  terminalValue : N;
  pvTerminalValue : N;
  enterpriseValue : N
}.

(** The [forEach] of [calculateDCF]: [index] is the position of the head
    of [cashFlows] in the whole array. *)
Fixpoint DCF_forEach (discountRate : N) (cashFlows : list N) (index : nat)
    (presentValue : N) : N :=
  match cashFlows with
  | [] => presentValue
  | cf :: rest =>
      let year := (index + 1)%nat in
      let pv := cf / Math_pow (#1 + discountRate) year in
      DCF_forEach discountRate rest (S index) (presentValue + pv)
  end.

Definition calculateDCF (cashFlows : list N) (discountRate terminalGrowthRate : N)
    : DCF :=
  let presentValue := DCF_forEach discountRate cashFlows 0 #0 in
  let lastCashFlow :=
    to_number (array_get cashFlows (Z.of_nat (length cashFlows) - 1)) in
  let terminalValue :=
    (lastCashFlow * (#1 + terminalGrowthRate))
      / (discountRate - terminalGrowthRate) in
  let pvTerminalValue :=
    terminalValue / Math_pow (#1 + discountRate) (length cashFlows) in
  let enterpriseValue := presentValue + pvTerminalValue in
  mkDCF presentValue terminalValue pvTerminalValue enterpriseValue.

(** *** Consortium *)

Record Consortium : Type := mkConsortium {
  monthlyPayment : N;
  totalPaid : N;
  totalCost : N;
  effectiveRate : N
}.

Definition calculateConsortium (creditAmount adminFee reserveFund insurance months : N)
    : Consortium :=
  let totalFees := adminFee + reserveFund + insurance in
  let monthlyPayment := (creditAmount / months) * (#1 + totalFees) in
  let totalPaid := monthlyPayment * months in
  let totalCost := totalPaid - creditAmount in
  mkConsortium monthlyPayment totalPaid totalCost (totalCost / creditAmount).

End Calculations.

Arguments Row : clear implicits.
Arguments Appreciation : clear implicits.
Arguments DREData : clear implicits.
Arguments DRE : clear implicits.
Arguments CashFlowData : clear implicits.
Arguments CashFlow : clear implicits.
Arguments DCF : clear implicits.
Arguments Consortium : clear implicits.

(** ** The two interpretations of numbers *)

(** *** binary64 *)

(** [Math.max] of two numbers: NaN if either is NaN, and +0 is larger
    than -0. *)
Definition float_max (x y : float) : float :=
  if (is_nan x || is_nan y)%bool then nan
  else if (x <? y)%float then y
  else if (y <? x)%float then x
  else if get_sign x then y else x.

(** Counts are exact up to 2^53. *)
Definition float_of_nat (n : nat) : float := of_uint63 (Uint63.of_nat n).

#[export] Instance binary64 : Number float := {
  of_nat := float_of_nat;
  add := PrimFloat.add;
  sub := PrimFloat.sub;
  mul := PrimFloat.mul;
  div := PrimFloat.div;
  strict_eq := PrimFloat.eqb;
  gt := fun x y => PrimFloat.ltb y x;
  Math_max := float_max;
  NaN := nan
}.

(** *** exact arithmetic *)

(** A real number, or [None] for the result of a division by zero and of
    anything computed from one (on binary64: an infinity or NaN).  The
    statements proved in this arithmetic are about results [Some v]. *)
Definition exactnum : Type := option R.

Definition lift2 (f : R -> R -> R) (a b : exactnum) : exactnum :=
  match a, b with
  | Some x, Some y => Some (f x y)
  | _, _ => None
  end.

Definition exact_div (a b : exactnum) : exactnum :=
  match a, b with
  | Some x, Some y => if Req_dec_T y 0 then None else Some (x / y)%R
  | _, _ => None
  end.

Definition exact_eq (a b : exactnum) : bool :=
  match a, b with
  | Some x, Some y => if Req_dec_T x y then true else false
  | _, _ => false
  end.

Definition exact_gt (a b : exactnum) : bool :=
  match a, b with
  | Some x, Some y => if Rlt_dec y x then true else false
  | _, _ => false
  end.

#[export] Instance exact_number : Number exactnum := {
  of_nat := fun n => Some (INR n);
  add := lift2 Rplus;
  sub := lift2 Rminus;
  mul := lift2 Rmult;
  div := exact_div;
  strict_eq := exact_eq;
  gt := exact_gt;
  Math_max := lift2 Rmax;
  NaN := None
}.

(** *** Dates at month granularity, for running the schedules *)

Record YearMonth : Type := mkYearMonth { ym_year : Z; ym_month : Z }.

#[export] Instance yearMonth_date : DateAPI YearMonth := {
  getMonth := ym_month;
  setMonth := fun d m => mkYearMonth (ym_year d + m / 12) (m mod 12)
}.

(** ** Vocabulary of the statements *)

Section Vocabulary.
Context {N : Type} `{Number N}.
Context {D : Type} `{DateAPI D}.
Local Open Scope js_scope.

(** The running balance of the SAC loop after [j] installments. *)
Definition SAC_balance (amortization principal : N) (j : nat) : N :=
  Nat.iter j (fun b => b - amortization) principal.

(** The running balance of the PRICE loop after [j] installments. *)
Definition PRICE_balance (payment monthlyRate principal : N) (j : nat) : N :=
  Nat.iter j (fun b => b - (payment - b * monthlyRate)) principal.

(** The balance a borrower sees before installment [j + 1]: the principal
    at first, then the balance field of the row above. *)
Definition balance_before (table : list (Row N D)) (principal : N) (j : nat) : N :=
  match j with
  | O => principal
  | S j' => to_number (option_map balance (nth_error table j'))
  end.

End Vocabulary.

(** Order on the numbers of exact arithmetic; nothing compares with [None]. *)
Definition exact_le (a b : exactnum) : Prop :=
  match a, b with
  | Some x, Some y => (x <= y)%R
  | _, _ => False
  end.

(** A field of an input object that is absent or holds a number. *)
Definition is_number (field : option exactnum) : Prop := field <> Some None.

Definition CashFlowData_numbers (data : CashFlowData exactnum) : Prop :=
  is_number (in_recebimentos data) /\
  is_number (in_pagamentosOperacionais data) /\
  is_number (in_pagamentosImpostos data) /\
  is_number (in_aquisicoesAtivos data) /\
  is_number (in_vendasAtivos data) /\
  is_number (in_aportesCapital data) /\
  is_number (in_pagamentosFinanciamentos data) /\
  is_number (in_distribuicaoLucros data) /\
  is_number (in_saldoInicial data).

Definition DREData_numbers (data : DREData exactnum) : Prop :=
  is_number (in_receitaBruta data) /\
  is_number (in_taxasPlataforma data) /\
  is_number (in_impostos data) /\
  is_number (in_custosVariaveis data) /\
  is_number (in_despesasFixas data) /\
  is_number (in_depreciacao data) /\
  is_number (in_despesasFinanceiras data) /\
  is_number (in_receitasFinanceiras data) /\
  is_number (in_ir data) /\
  is_number (in_csll data).

(** Inputs on which the program is run below. *)
Definition jan2024 : YearMonth := mkYearMonth 2024 0.

(** [{ receitaBruta: -100 }] *)
Definition negative_revenue : DREData float :=
  mkDREData (Some (-100)%float) None None None None None None None None None.

(** [{ recebimentos: 0.2, saldoInicial: 0.1 }] *)
Definition tenth_and_fifth : CashFlowData float :=
  mkCashFlowData (Some 0.2%float) None None None None None None None
    (Some 0.1%float).

(** [{ receitaBruta: 1000, impostos: 100, custosVariaveis: 300 }] *)
Definition sample_income : DREData exactnum :=
  mkDREData (Some (Some 1000%R)) None (Some (Some 100%R)) (Some (Some 300%R))
    None None None None None None.

(** [{ recebimentos: 5000, pagamentosOperacionais: 1200, saldoInicial: 300 }] *)
Definition sample_cash_flow : CashFlowData exactnum :=
  mkCashFlowData (Some (Some 5000%R)) (Some (Some 1200%R)) None None None None
    None None (Some (Some 300%R)).

(** ** The rest of the module, and the helpers of utils.js it is used with *)

(** [Math.abs] and [Math.min], which the functions below use besides the
    arithmetic of [Number]. *)
Class MathLib (N : Type) : Type := {
  Math_abs : N -> N;
  Math_min : N -> N -> N
}.

(** [Math.min] of two numbers: NaN if either is NaN, and -0 is smaller
    than +0. *)
Definition float_min (x y : float) : float :=
  if (is_nan x || is_nan y)%bool then nan
  else if (x <? y)%float then x
  else if (y <? x)%float then y
  else if get_sign x then x else y.

#[export] Instance binary64_math : MathLib float := {
  Math_abs := PrimFloat.abs;
  Math_min := float_min
}.

#[export] Instance exact_math : MathLib exactnum := {
  Math_abs := option_map Rabs;
  Math_min := lift2 Rmin
}.

(** The year of a [Date], which [Utils.monthsBetween] reads. *)
Class DateYearAPI (D : Type) : Type := {
  getFullYear : D -> Z
}.

Section MoreCalculations.
Context {N : Type} `{Number N} `{MathLib N}.
Context {D : Type} `{DateAPI D} `{DateYearAPI D}.
Local Open Scope js_scope.

(** A decimal literal with two places: [0.01] is [hundredths 1].  The
    quotient of two integers is correctly rounded, so on binary64 it is the
    double the literal denotes. *)
Definition hundredths (n : nat) : N := #n / #100.

(** An optional parameter with a default value. *)
Definition default (d : N) (arg : option N) : N :=
  match arg with Some x => x | None => d end.

(** *** Depreciation *)

Record Depreciation : Type := mkDepreciation {
  annualDepreciation : N;
  accumulatedDepreciation : N;
  bookValue : N;
  remainingLife : N
}.

Definition calculateDepreciation (value lifeYears : N) (yearsUsed : option N)
    : Depreciation :=
  let yearsUsed := default #0 yearsUsed in
  let annualDepreciation := value / lifeYears in
  let accumulatedDepreciation := annualDepreciation * yearsUsed in
  let bookValue := value - accumulatedDepreciation in
  let remainingLife := Math_max #0 (lifeYears - yearsUsed) in
  mkDepreciation annualDepreciation accumulatedDepreciation bookValue remainingLife.

Definition calculateMonthlyDepreciation (value lifeYears : N) : N :=
  (value / lifeYears) / #12.

(** *** Property metrics, the rest *)

Definition calculateNOI (grossRevenue operatingExpenses : N) : N :=
  grossRevenue - operatingExpenses.

Definition calculateEquity (propertyValue debt : N) : N :=
  propertyValue - debt.

(** *** Balance sheet *)

Record BalanceSheetData : Type := mkBalanceSheetData {
  in_caixaEquivalentes : option N;
  in_contasReceber : option N;
  in_outrosAtivosCirculantes : option N;
  in_imoveis : option N;
  in_depreciacaoAcumulada : option N;
  in_moveisEquipamentos : option N;
  in_depreciacaoMoveisAcumulada : option N;
  in_outrosAtivosNaoCirculantes : option N;
  in_fornecedores : option N;
  in_impostosPagar : option N;
  in_financiamentosCurtoPrazo : option N;
  in_outrosPassivosCirculantes : option N;
  in_financiamentosLongoPrazo : option N;
  in_outrosPassivosNaoCirculantes : option N;
  in_capitalSocial : option N;
  in_reservas : option N;
  in_lucrosAcumulados : option N
}.

Record AtivoCirculante : Type := mkAtivoCirculante {
  caixaEquivalentes : N;
  contasReceber : N;
  outrosAtivosCirculantes : N;
  ativoCirculante_total : N
}.

Record AtivoNaoCirculante : Type := mkAtivoNaoCirculante {
  imoveis : N;
  depreciacaoAcumulada : N;
  imoveisLiquidos : N;
  moveisEquipamentos : N;
  depreciacaoMoveisAcumulada : N;
  moveisLiquidos : N;
  outrosAtivosNaoCirculantes : N;
  ativoNaoCirculante_total : N
}.

Record Ativo : Type := mkAtivo {
  ativo_circulante : AtivoCirculante;
  ativo_naoCirculante : AtivoNaoCirculante;
  ativo_total : N
}.

Record PassivoCirculante : Type := mkPassivoCirculante {
  fornecedores : N;
  impostosPagar : N;
  financiamentosCurtoPrazo : N;
  outrosPassivosCirculantes : N;
  passivoCirculante_total : N
}.

Record PassivoNaoCirculante : Type := mkPassivoNaoCirculante {
  financiamentosLongoPrazo : N;
  outrosPassivosNaoCirculantes : N;
  passivoNaoCirculante_total : N
}.

Record Passivo : Type := mkPassivo {
  passivo_circulante : PassivoCirculante;
  passivo_naoCirculante : PassivoNaoCirculante;
  passivo_total : N
}.

Record PatrimonioLiquido : Type := mkPatrimonioLiquido {
  capitalSocial : N;
  reservas : N;
  lucrosAcumulados : N;
  patrimonioLiquido_total : N
}.

Record BalanceSheet : Type := mkBalanceSheet {
  ativo : Ativo;
  passivo : Passivo;
  patrimonioLiquido : PatrimonioLiquido;
  passivoMaisPL : N;
  balanced : bool
}.

Definition calculateBalanceSheet (data : BalanceSheetData) : BalanceSheet :=
  let caixaEquivalentes := default0 (in_caixaEquivalentes data) in
  let contasReceber := default0 (in_contasReceber data) in
  let outrosAtivosCirculantes := default0 (in_outrosAtivosCirculantes data) in
  let imoveis := default0 (in_imoveis data) in
  let depreciacaoAcumulada := default0 (in_depreciacaoAcumulada data) in
  let moveisEquipamentos := default0 (in_moveisEquipamentos data) in
  let depreciacaoMoveisAcumulada := default0 (in_depreciacaoMoveisAcumulada data) in
  let outrosAtivosNaoCirculantes := default0 (in_outrosAtivosNaoCirculantes data) in
  let fornecedores := default0 (in_fornecedores data) in
  let impostosPagar := default0 (in_impostosPagar data) in
  let financiamentosCurtoPrazo := default0 (in_financiamentosCurtoPrazo data) in
  let outrosPassivosCirculantes := default0 (in_outrosPassivosCirculantes data) in
  let financiamentosLongoPrazo := default0 (in_financiamentosLongoPrazo data) in
  let outrosPassivosNaoCirculantes :=
    default0 (in_outrosPassivosNaoCirculantes data) in
  let capitalSocial := default0 (in_capitalSocial data) in
  let reservas := default0 (in_reservas data) in
  let lucrosAcumulados := default0 (in_lucrosAcumulados data) in
  let ativoCirculante := caixaEquivalentes + contasReceber + outrosAtivosCirculantes in
  let imoveisLiquidos := imoveis - depreciacaoAcumulada in
  let moveisLiquidos := moveisEquipamentos - depreciacaoMoveisAcumulada in
  let ativoNaoCirculante :=
    imoveisLiquidos + moveisLiquidos + outrosAtivosNaoCirculantes in
  let ativoTotal := ativoCirculante + ativoNaoCirculante in
  let passivoCirculante :=
    fornecedores + impostosPagar + financiamentosCurtoPrazo
    + outrosPassivosCirculantes in
  let passivoNaoCirculante :=
    financiamentosLongoPrazo + outrosPassivosNaoCirculantes in
  let passivoTotal := passivoCirculante + passivoNaoCirculante in
  let patrimonioLiquido := capitalSocial + reservas + lucrosAcumulados in
  let passivoMaisPL := passivoTotal + patrimonioLiquido in
  let balanced := hundredths 1 > Math_abs (ativoTotal - passivoMaisPL) in
  mkBalanceSheet
    (mkAtivo
       (mkAtivoCirculante caixaEquivalentes contasReceber outrosAtivosCirculantes
          ativoCirculante)
       (mkAtivoNaoCirculante imoveis depreciacaoAcumulada imoveisLiquidos
          moveisEquipamentos depreciacaoMoveisAcumulada moveisLiquidos
          outrosAtivosNaoCirculantes ativoNaoCirculante)
       ativoTotal)
    (mkPassivo
       (mkPassivoCirculante fornecedores impostosPagar financiamentosCurtoPrazo
          outrosPassivosCirculantes passivoCirculante)
       (mkPassivoNaoCirculante financiamentosLongoPrazo
          outrosPassivosNaoCirculantes passivoNaoCirculante)
       passivoTotal)
    (mkPatrimonioLiquido capitalSocial reservas lucrosAcumulados patrimonioLiquido)
    passivoMaisPL balanced.

(** *** Valuation, the rest *)

Definition calculateEquityValue (enterpriseValue debt cash : N) : N :=
  enterpriseValue - debt + cash.

Definition calculateNAV (totalAssets totalLiabilities : N) : N :=
  totalAssets - totalLiabilities.

Definition calculateEVtoEBITDA (enterpriseValue ebitda : N) : N :=
  if ebitda === #0 then #0 else enterpriseValue / ebitda.

Definition calculateEVtoRevenue (enterpriseValue revenue : N) : N :=
  if revenue === #0 then #0 else enterpriseValue / revenue.

(** *** Projections *)

(** One step of the [forEach]: read the last projection, push the next. *)
Definition project_step (projections : list N) (rate : N) : list N :=
  let lastValue :=
    to_number (array_get projections (Z.of_nat (length projections) - 1)) in
  projections ++ [lastValue * (#1 + rate)].

Definition projectRevenue (baseRevenue : N) (growthRates : list N) : list N :=
  let projections := fold_left project_step growthRates [baseRevenue] in
  tl projections.

Definition projectExpenses (baseExpense : N) (inflationRates : list N) : list N :=
  let projections := fold_left project_step inflationRates [baseExpense] in
  tl projections.

(** *** Taxes *)

Definition calculateISS (revenue : N) (rate : option N) : N :=
  let rate := default (hundredths 5) rate in
  revenue * rate.

Record CorporateTax : Type := mkCorporateTax {
  tax_ir : N;
  tax_csll : N;
  tax_total : N
}.

Definition calculateCorporateTax (profit : N) (irRate csllRate : option N)
    : CorporateTax :=
  let irRate := default (hundredths 15) irRate in
  let csllRate := default (hundredths 9) csllRate in
  let ir := if profit > #0 then profit * irRate else #0 in
  let csll := if profit > #0 then profit * csllRate else #0 in
  let total := ir + csll in
  mkCorporateTax ir csll total.

(** *** utils.js *)

(** [Utils.monthsBetween]: the getters return integers. *)
Definition monthsBetween (date1 date2 : D) : Z :=
  ((getFullYear date2 - getFullYear date1) * 12
   + (getMonth date2 - getMonth date1))%Z.

Definition percentageChange (oldValue newValue : N) : N :=
  if oldValue === #0 then (if newValue > #0 then #1 else #0)
  else (newValue - oldValue) / oldValue.

Definition clamp (value min max : N) : N :=
  Math_min (Math_max value min) max.

End MoreCalculations.

Arguments Depreciation : clear implicits.
Arguments BalanceSheetData : clear implicits.
Arguments BalanceSheet : clear implicits.
Arguments CorporateTax : clear implicits.

(** *** Calendar dates

    A [Date] as its local year, month (0 to 11) and day of the month; the
    time of day, which [setMonth] keeps, is left out. *)

Record CalendarDate : Type := mkCalendarDate {
  cd_year : Z;
  cd_month : Z;
  cd_day : Z
}.

Definition leap_year (y : Z) : bool :=
  ((y mod 4 =? 0) && negb (y mod 100 =? 0) || (y mod 400 =? 0))%Z%bool.

Definition days_in_month (y m : Z) : Z :=
  if (m =? 1)%Z then (if leap_year y then 29 else 28)%Z
  else if ((m =? 3) || (m =? 5) || (m =? 8) || (m =? 10))%Z%bool then 30%Z
  else 31%Z.

(** [setMonth(m)] puts the date on day [cd_day] counted from the first of
    month [m] of the year, months beyond 0..11 moving the year: a day past
    the end of that month runs over into the next one. *)
Definition calendar_setMonth (d : CalendarDate) (m : Z) : CalendarDate :=
  let y := (cd_year d + m / 12)%Z in
  let mn := (m mod 12)%Z in
  let len := days_in_month y mn in
  if (cd_day d <=? len)%Z then mkCalendarDate y mn (cd_day d)
  else if (mn =? 11)%Z then mkCalendarDate (y + 1) 0 (cd_day d - len)
  else mkCalendarDate y (mn + 1) (cd_day d - len).

#[export] Instance calendar_date : DateAPI CalendarDate := {
  getMonth := cd_month;
  setMonth := calendar_setMonth
}.

#[export] Instance calendar_year : DateYearAPI CalendarDate := {
  getFullYear := cd_year
}.

(** A date that exists: month 0 to 11, day 1 to the length of the month. *)
Definition valid_date (d : CalendarDate) : Prop :=
  (0 <= cd_month d <= 11)%Z /\
  (1 <= cd_day d <= days_in_month (cd_year d) (cd_month d))%Z.

Definition BalanceSheetData_numbers (data : BalanceSheetData exactnum) : Prop :=
  is_number (in_caixaEquivalentes data) /\
  is_number (in_contasReceber data) /\
  is_number (in_outrosAtivosCirculantes data) /\
  is_number (in_imoveis data) /\
  is_number (in_depreciacaoAcumulada data) /\
  is_number (in_moveisEquipamentos data) /\
  is_number (in_depreciacaoMoveisAcumulada data) /\
  is_number (in_outrosAtivosNaoCirculantes data) /\
  is_number (in_fornecedores data) /\
  is_number (in_impostosPagar data) /\
  is_number (in_financiamentosCurtoPrazo data) /\
  is_number (in_outrosPassivosCirculantes data) /\
  is_number (in_financiamentosLongoPrazo data) /\
  is_number (in_outrosPassivosNaoCirculantes data) /\
  is_number (in_capitalSocial data) /\
  is_number (in_reservas data) /\
  is_number (in_lucrosAcumulados data).

(** [{ caixaEquivalentes: 1000, imoveis: 500000, depreciacaoAcumulada: 20000,
       financiamentosLongoPrazo: 300000, capitalSocial: 181000 }] *)
Definition sample_balance_sheet : BalanceSheetData exactnum :=
  mkBalanceSheetData (Some (Some 1000%R)) None None (Some (Some 500000%R))
    (Some (Some 20000%R)) None None None None None None None
    (Some (Some 300000%R)) None (Some (Some 181000%R)) None None.

Section ProjectionVocabulary.
Context {N : Type} `{Number N}.

(** Compounding from a starting value, one period per rate. *)
Fixpoint compound (start : N) (rates : list N) : list N :=
  match rates with
  | [] => []
  | rate :: rest =>
      let next := mul start (add (of_nat 1) rate) in
      next :: compound next rest
  end.

End ProjectionVocabulary.

(** ** The schedules, row by row *)

Section Schedules.
Context {N : Type} `{Number N}.
Context {D : Type} `{DateAPI D}.
Local Open Scope js_scope.

Lemma SAC_balance_shift a b j :
  SAC_balance a (b - a) j = SAC_balance a b (S j).
Proof. unfold SAC_balance. now rewrite Nat.iter_succ_r. Qed.

Lemma PRICE_balance_shift p r b j :
  PRICE_balance p r (b - (p - b * r)) j = PRICE_balance p r b (S j).
Proof. unfold PRICE_balance. now rewrite Nat.iter_succ_r. Qed.

Lemma SAC_loop_length a r d i b k : length (SAC_loop a r d i b k) = k.
Proof.
  revert i b; induction k as [|k IH]; intros i b; simpl; [reflexivity|].
  now rewrite IH.
Qed.

Lemma PRICE_loop_length p r d i b k : length (PRICE_loop p r d i b k) = k.
Proof.
  revert i b; induction k as [|k IH]; intros i b; simpl; [reflexivity|].
  now rewrite IH.
Qed.

Lemma SAC_loop_nth a r d k : forall i b j, (j < k)%nat ->
  nth_error (SAC_loop a r d i b k) j =
  Some (mkRow (i + j) (addMonths d (Z.of_nat (i + j) - 1))
          (a + SAC_balance a b j * r) (SAC_balance a b j * r) a
          (Math_max #0 (SAC_balance a b (S j)))).
Proof.
  induction k as [|k IH]; intros i b j Hj; [lia|].
  destruct j as [|j]; cbn [SAC_loop nth_error].
  - now rewrite Nat.add_0_r.
  - rewrite IH by lia. rewrite !SAC_balance_shift.
    now replace (S i + j)%nat with (i + S j)%nat by lia.
Qed.

Lemma PRICE_loop_nth p r d k : forall i b j, (j < k)%nat ->
  nth_error (PRICE_loop p r d i b k) j =
  Some (mkRow (i + j) (addMonths d (Z.of_nat (i + j) - 1))
          p (PRICE_balance p r b j * r) (p - PRICE_balance p r b j * r)
          (Math_max #0 (PRICE_balance p r b (S j)))).
Proof.
  induction k as [|k IH]; intros i b j Hj; [lia|].
  destruct j as [|j]; cbn [PRICE_loop nth_error].
  - now rewrite Nat.add_0_r.
  - rewrite IH by lia. rewrite !PRICE_balance_shift.
    now replace (S i + j)%nat with (i + S j)%nat by lia.
Qed.

Lemma SAC_loop_amortization a r d k : forall i b,
  map amortization (SAC_loop a r d i b k) = repeat a k.
Proof.
  induction k as [|k IH]; intros i b; simpl; [reflexivity|].
  now rewrite IH.
Qed.

Lemma PRICE_loop_payment p r d k : forall i b,
  map payment (PRICE_loop p r d i b k) = repeat p k.
Proof.
  induction k as [|k IH]; intros i b; simpl; [reflexivity|].
  now rewrite IH.
Qed.

End Schedules.

(** The balance a row reports is clamped at 0. *)
Section Clamp.
Context {N : Type} `{Number N}.
Context {D : Type} `{DateAPI D}.

Lemma SAC_loop_clamped a r (d : D) k : forall i b row,
  In row (SAC_loop a r d i b k) ->
  exists b', balance row = Math_max (of_nat 0) b'.
Proof.
  induction k as [|k IH]; intros i b row Hin; [contradiction|].
  destruct Hin as [<- | Hin]; [cbn; eauto | eapply IH; eassumption].
Qed.

Lemma PRICE_loop_clamped p r (d : D) k : forall i b row,
  In row (PRICE_loop p r d i b k) ->
  exists b', balance row = Math_max (of_nat 0) b'.
Proof.
  induction k as [|k IH]; intros i b row Hin; [contradiction|].
  destruct Hin as [<- | Hin]; [cbn; eauto | eapply IH; eassumption].
Qed.

End Clamp.

(** ** Exact arithmetic: how the operations compute *)

Section ExactArithmetic.
Local Open Scope R_scope.

Lemma exact_div_some (x y : R) : y <> 0 -> div (Some x) (Some y) = Some (x / y).
Proof.
  intros Hy. cbn. unfold exact_div.
  destruct (Req_dec_T y 0); [contradiction | reflexivity].
Qed.

Lemma exact_eq_true (x : R) : strict_eq (Some x) (Some x) = true.
Proof. cbn. destruct (Req_dec_T x x); [reflexivity | congruence]. Qed.

Lemma exact_eq_false (x y : R) : x <> y -> strict_eq (Some x) (Some y) = false.
Proof. intros Hxy. cbn. destruct (Req_dec_T x y); [contradiction | reflexivity]. Qed.

Lemma exact_gt_true (x y : R) : y < x -> gt (Some x) (Some y) = true.
Proof. intros Hxy. cbn. destruct (Rlt_dec y x); [reflexivity | contradiction]. Qed.

Lemma exact_gt_false (x y : R) : x <= y -> gt (Some x) (Some y) = false.
Proof. intros Hxy. cbn. destruct (Rlt_dec y x); [lra | reflexivity]. Qed.

Lemma default0_number (field : option exactnum) :
  is_number field -> exists x : R, default0 field = Some x.
Proof.
  destruct field as [[x|]|]; intros Hf.
  - now exists x.
  - now contradiction Hf.
  - now exists (INR 0).
Qed.

Lemma exact_of_nat (n : nat) : of_nat n = Some (INR n).
Proof. reflexivity. Qed.

Lemma INR_12 : INR 12 = 12.
Proof. simpl. lra. Qed.

Lemma exact_monthlyRate (rate : R) : div (Some rate) (of_nat 12) = Some (rate / 12).
Proof.
  rewrite exact_of_nat, INR_12. apply exact_div_some. lra.
Qed.

Lemma exact_pow (x : R) (n : nat) : Math_pow (Some x) n = Some (x ^ n).
Proof.
  induction n as [|n IH]; simpl.
  - reflexivity.
  - rewrite IH. reflexivity.
Qed.

Lemma exact_fold_repeat (a : R) (k : nat) : forall acc : R,
  fold_left add (repeat (Some a) k) (Some acc) = Some (acc + INR k * a).
Proof.
  induction k as [|k IH]; intros acc.
  - simpl. f_equal. lra.
  - cbn [repeat fold_left]. change (add (Some acc) (Some a)) with (Some (acc + a)).
    rewrite IH, S_INR. f_equal. lra.
Qed.

Lemma exact_SAC_balance (a P : R) (j : nat) :
  SAC_balance (Some a) (Some P) j = Some (P - INR j * a).
Proof.
  unfold SAC_balance. induction j as [|j IH].
  - simpl. f_equal. lra.
  - rewrite Nat.iter_succ, IH, S_INR. cbn. f_equal. lra.
Qed.

(** An installment count below the term leaves a part of the principal. *)
Lemma SAC_balance_nonneg (P : R) (n j : nat) :
  0 < P -> (j <= n)%nat -> (1 <= n)%nat -> 0 <= P - INR j * (P / INR n).
Proof.
  intros HP Hj Hn.
  assert (Hn0 : 0 < INR n) by (apply lt_0_INR; lia).
  assert (Hjn : INR j <= INR n) by (apply le_INR; lia).
  replace (P - INR j * (P / INR n)) with (P * ((INR n - INR j) / INR n))
    by (field; lra).
  apply Rmult_le_pos; [lra|].
  apply Rmult_le_pos; [lra|].
  apply Rlt_le, Rinv_0_lt_compat; assumption.
Qed.

End ExactArithmetic.

(** ** binary64: how the operations compute *)

Section Binary64Arithmetic.
Local Open Scope float_scope.

Lemma Prim2SF_nan : Prim2SF nan = S754_nan.
Proof. reflexivity. Qed.

Lemma float_mul_nan_l (x : float) : nan * x = nan.
Proof. apply Prim2SF_inj. rewrite FloatAxioms.mul_spec, Prim2SF_nan. reflexivity. Qed.

Lemma float_div_nan_l (x : float) : nan / x = nan.
Proof. apply Prim2SF_inj. rewrite FloatAxioms.div_spec, Prim2SF_nan. reflexivity. Qed.

Lemma float_ltb_leb (x y : float) : (x <? y) = true -> (x <=? y) = true.
Proof.
  rewrite FloatAxioms.ltb_spec, FloatAxioms.leb_spec.
  unfold SFltb, SFleb. destruct (SFcompare _ _) as [[| |]|]; congruence.
Qed.

(** [Math.max(0, b)] is NaN or at least 0. *)
Lemma float_max_zero (b : float) :
  is_nan (float_max 0 b) = true \/ (0 <=? float_max 0 b) = true.
Proof.
  unfold float_max. change (is_nan 0) with false. cbn [orb].
  destruct (is_nan b); [left; reflexivity|].
  destruct (0 <? b) eqn:Hlt; [right; now apply float_ltb_leb|].
  destruct (b <? 0); right; reflexivity.
Qed.

End Binary64Arithmetic.

(** ** Constant amortization (SAC) *)

Section SAC.
Context {D : Type} `{DateAPI D}.
Local Open Scope R_scope.

Lemma exact_generateSACTable (P rate : R) (n : nat) (d : D) :
  (1 <= n)%nat ->
  generateSACTable (Some P) (Some rate) n d =
  SAC_loop (Some (P / INR n)) (Some (rate / 12)) d 1 (Some P) n.
Proof.
  intros Hn. unfold generateSACTable.
  rewrite exact_monthlyRate, exact_of_nat, exact_div_some; [reflexivity|].
  apply not_0_INR. lia.
Qed.

Lemma exact_SAC_row (P rate : R) (n : nat) (d : D) (j : nat) :
  (1 <= n)%nat -> (j < n)%nat ->
  nth_error (generateSACTable (Some P) (Some rate) n d) j =
  Some (mkRow (1 + j) (addMonths d (Z.of_nat (1 + j) - 1))
          (Some (P / INR n + (P - INR j * (P / INR n)) * (rate / 12)))
          (Some ((P - INR j * (P / INR n)) * (rate / 12)))
          (Some (P / INR n))
          (Some (Rmax 0 (P - INR (S j) * (P / INR n))))).
Proof.
  intros Hn Hj. rewrite exact_generateSACTable by assumption.
  rewrite SAC_loop_nth by assumption.
  rewrite !exact_SAC_balance. reflexivity.
Qed.

(** C1, in exact arithmetic.  For principal > 0 and termMonths >= 1 the
    SAC schedule has termMonths rows; every row has the principal portion
    principal / termMonths and the interest portion (balance before the
    row) * annualRate / 12; the amortization fields sum to the principal
    and the last row's balance is 0. *)
Theorem SAC_schedule_exact (P rate : R) (n : nat) (d : D) :
  0 < P -> (1 <= n)%nat ->
  let table := generateSACTable (Some P) (Some rate) n d in
  length table = n /\
  (forall j row, nth_error table j = Some row ->
     amortization row = Some (P / INR n) /\
     interest row = mul (balance_before table (Some P) j) (Some (rate / 12))) /\
  sum (map amortization table) = Some P /\
  (exists row, nth_error table (n - 1) = Some row /\ balance row = Some 0).
Proof.
  intros HP Hn table.
  assert (Hlen : length table = n).
  { unfold table. rewrite exact_generateSACTable by assumption.
    apply SAC_loop_length. }
  assert (Hn0 : INR n <> 0) by (apply not_0_INR; lia).
  split; [exact Hlen|]. split; [|split].
  - intros j row Hrow.
    assert (Hj : (j < n)%nat).
    { rewrite <- Hlen. apply nth_error_Some. congruence. }
    unfold table in Hrow. rewrite exact_SAC_row in Hrow by assumption.
    injection Hrow as <-. cbn [amortization interest]. split; [reflexivity|].
    destruct j as [|j]; cbn [balance_before].
    + cbn. do 2 f_equal. simpl. lra.
    + unfold table. rewrite exact_SAC_row by (assumption || lia).
      cbn [option_map to_number balance].
      rewrite Rmax_right by (apply SAC_balance_nonneg; (assumption || lia)).
      reflexivity.
  - unfold table. rewrite exact_generateSACTable by assumption.
    unfold sum. rewrite SAC_loop_amortization, exact_of_nat.
    rewrite exact_fold_repeat. f_equal. simpl. field. exact Hn0.
  - unfold table. rewrite exact_SAC_row by (assumption || lia).
    eexists. split; [reflexivity|]. cbn [balance].
    replace (S (n - 1)) with n by lia.
    replace (P - INR n * (P / INR n)) with 0 by (field; exact Hn0).
    now rewrite Rmax_left by lra.
Qed.

End SAC.

Lemma SAC_schedule_exact_witness :
  (0 < 120000)%R /\ (1 <= 12)%nat /\
  sum (map amortization (generateSACTable (Some 120000%R) (Some 0.12%R) 12 jan2024))
  = Some 120000%R.
Proof.
  split; [lra|]. split; [lia|].
  apply (SAC_schedule_exact 120000 0.12 12 jan2024); [lra | lia].
Defined.

(** C1 on binary64.  A loan of 1 over 10 months at rate 0: the installment
    is the double nearest to 0.1, ten of them add up to 0.9999999999999999
    and not to 1, and the last row's balance is 1.3877787807814457e-16 and
    not 0 ([Math.max(0, _)] removes a negative residue only).  Likewise a
    loan of 1000 over 3 months ends at 1.1368683772161603e-13. *)
Lemma SAC_schedule_binary64_residue :
  let table := generateSACTable 1%float 0%float 10 jan2024 in
  sum (map amortization table) = 0.9999999999999999%float /\
  strict_eq (sum (map amortization table)) 1%float = false /\
  map balance (skipn 9 table) = [1.3877787807814457e-16%float] /\
  existsb (fun row => strict_eq (balance row) 0%float) (skipn 9 table) = false /\
  map balance (skipn 2 (generateSACTable 1000%float 0.12%float 3 jan2024))
  = [1.1368683772161603e-13%float].
Proof. vm_compute. repeat split; reflexivity. Qed.

(** ** Fixed payment (PRICE) *)

Section PRICE.
Context {D : Type} `{DateAPI D}.
Local Open Scope R_scope.

Lemma exact_one_plus (r : R) : add (of_nat 1) (Some r) = Some (1 + r).
Proof. reflexivity. Qed.

Lemma exact_PRICEPayment_zero_rate (P : R) (n : nat) :
  (1 <= n)%nat ->
  calculatePRICEPayment (Some P) (Some 0) n = Some (P / INR n).
Proof.
  intros Hn. unfold calculatePRICEPayment. rewrite exact_monthlyRate.
  replace (0 / 12) with 0 by lra.
  change (of_nat 0) with (Some 0). rewrite exact_eq_true.
  rewrite exact_of_nat. apply exact_div_some, not_0_INR. lia.
Qed.

Lemma exact_PRICEPayment (P rate : R) (n : nat) :
  rate <> 0 -> (1 + rate / 12) ^ n <> 1 ->
  calculatePRICEPayment (Some P) (Some rate) n =
  Some (P * (rate / 12 * (1 + rate / 12) ^ n) / ((1 + rate / 12) ^ n - 1)).
Proof.
  intros Hrate Hq. unfold calculatePRICEPayment. rewrite exact_monthlyRate.
  change (of_nat 0) with (Some 0). rewrite exact_eq_false by lra.
  rewrite exact_one_plus, exact_pow.
  change (of_nat 1) with (Some 1). cbn [mul sub exact_number lift2].
  apply exact_div_some. lra.
Qed.

Lemma exact_PRICE_balance (p r P : R) (j : nat) :
  r <> 0 ->
  PRICE_balance (Some p) (Some r) (Some P) j =
  Some (P * (1 + r) ^ j - p * ((1 + r) ^ j - 1) / r).
Proof.
  intros Hr. unfold PRICE_balance. induction j as [|j IH].
  - simpl. f_equal. field. exact Hr.
  - rewrite Nat.iter_succ, IH. cbn. f_equal. field. exact Hr.
Qed.

Lemma exact_PRICE_balance_zero_rate (p P : R) (j : nat) :
  PRICE_balance (Some p) (Some 0) (Some P) j = Some (P - INR j * p).
Proof.
  unfold PRICE_balance. induction j as [|j IH].
  - simpl. f_equal. lra.
  - rewrite Nat.iter_succ, IH, S_INR. cbn. f_equal. lra.
Qed.

(** The running balance stays a number when the payment and the rate are. *)
Lemma exact_PRICE_balance_some (p r P : R) (j : nat) :
  exists b, PRICE_balance (Some p) (Some r) (Some P) j = Some b.
Proof.
  unfold PRICE_balance. induction j as [|j [b IH]].
  - now exists P.
  - rewrite Nat.iter_succ, IH. cbn. eauto.
Qed.

(** The principal portions add up to what the balance went down by. *)
Lemma exact_PRICE_sum (p r : R) (d : D) (k : nat) : forall (i : nat) (b acc bk : R),
  PRICE_balance (Some p) (Some r) (Some b) k = Some bk ->
  fold_left add (map amortization (PRICE_loop (Some p) (Some r) d i (Some b) k))
    (Some acc) = Some (acc + b - bk).
Proof.
  induction k as [|k IH]; intros i b acc bk Hbk.
  - cbn in Hbk. injection Hbk as <-. cbn. f_equal. lra.
  - cbn [PRICE_loop map fold_left amortization].
    rewrite <- PRICE_balance_shift in Hbk. cbn in Hbk.
    cbn [add sub mul exact_number lift2].
    rewrite (IH _ _ _ bk Hbk). f_equal. lra.
Qed.

End PRICE.

Section PRICE_schedule.
Context {N : Type} `{Number N}.
Context {D : Type} `{DateAPI D}.

(** In any arithmetic, every row carries the payment computed up front. *)
Lemma generatePRICETable_payment (principal annualRate : N) (months : nat) (d : D) :
  forall row, In row (generatePRICETable principal annualRate months d) ->
  payment row = calculatePRICEPayment principal annualRate months.
Proof.
  intros row Hrow. unfold generatePRICETable in Hrow.
  apply (in_map payment) in Hrow. rewrite PRICE_loop_payment in Hrow.
  now apply repeat_spec in Hrow.
Qed.

End PRICE_schedule.

Section PRICE_exact.
Context {D : Type} `{DateAPI D}.
Local Open Scope R_scope.

(** C2, in exact arithmetic.  For principal > 0, termMonths >= 1 and a
    monthly rate r = annualRate / 12 with r = 0 or (1 + r)^n <> 1, every row
    of the PRICE schedule has the payment of [calculatePRICEPayment], which
    is principal / n when r = 0 and principal * r (1+r)^n / ((1+r)^n - 1)
    otherwise, and the principal portions sum to the principal. *)
Theorem PRICE_schedule_exact (P rate : R) (n : nat) (d : D) :
  0 < P -> (1 <= n)%nat -> rate = 0 \/ (1 + rate / 12) ^ n <> 1 ->
  let pay := calculatePRICEPayment (Some P) (Some rate) n in
  let table := generatePRICETable (Some P) (Some rate) n d in
  length table = n /\
  (forall row, In row table -> payment row = pay) /\
  (rate = 0 -> pay = Some (P / INR n)) /\
  (rate <> 0 ->
   pay = Some (P * (rate / 12 * (1 + rate / 12) ^ n) / ((1 + rate / 12) ^ n - 1))) /\
  sum (map amortization table) = Some P.
Proof.
  intros HP Hn Hdom pay table.
  assert (Hn0 : INR n <> 0) by (apply not_0_INR; lia).
  split; [apply PRICE_loop_length|].
  split; [apply generatePRICETable_payment|].
  split; [intros ->; now apply exact_PRICEPayment_zero_rate|].
  split.
  { intros Hrate. destruct Hdom as [?|Hq]; [contradiction|].
    now apply exact_PRICEPayment. }
  unfold table, generatePRICETable, sum. fold pay.
  rewrite exact_monthlyRate. change (of_nat 0) with (Some 0).
  destruct (Req_dec_T rate 0) as [->|Hrate].
  - unfold pay. rewrite exact_PRICEPayment_zero_rate by assumption.
    replace (0 / 12) with 0 by lra.
    rewrite (exact_PRICE_sum _ _ _ _ _ _ _ _ (exact_PRICE_balance_zero_rate _ _ _)).
    f_equal. field. exact Hn0.
  - destruct Hdom as [?|Hq]; [contradiction|].
    unfold pay. rewrite exact_PRICEPayment by assumption.
    assert (Hr : rate / 12 <> 0) by lra.
    rewrite (exact_PRICE_sum _ _ _ _ _ _ _ _ (exact_PRICE_balance _ _ _ _ Hr)).
    f_equal. field. split; lra.
Qed.

End PRICE_exact.

Lemma PRICE_schedule_exact_witness :
  (0 < 100000)%R /\ (1 <= 12)%nat /\ ((1 + 0.12 / 12) ^ 12 <> 1)%R /\
  sum (map amortization (generatePRICETable (Some 100000%R) (Some 0.12%R) 12 jan2024))
  = Some 100000%R.
Proof.
  assert (Hq : ((1 + 0.12 / 12) ^ 12 <> 1)%R).
  { apply Rgt_not_eq, Rlt_pow_R1; [lra | lia]. }
  split; [lra|]. split; [lia|]. split; [exact Hq|].
  apply (PRICE_schedule_exact 100000 0.12 12 jan2024); [lra | lia | right; exact Hq].
Defined.

(** C2 on a rate the claim admits.  annualRate = -24 over 2 months gives
    r = -2 and (1 + r)^2 = 1: the annuity formula divides by zero, the
    payment is -Infinity and the principal portions add up to NaN. *)
Lemma PRICE_schedule_division_by_zero :
  let table := generatePRICETable 1%float (-24)%float 2 jan2024 in
  calculatePRICEPayment 1%float (-24)%float 2 = neg_infinity /\
  map amortization table = [neg_infinity; nan] /\
  sum (map amortization table) = nan /\
  strict_eq (sum (map amortization table)) 1%float = false.
Proof. vm_compute. repeat split; reflexivity. Qed.

(** ** Remaining balance of a PRICE loan *)

Section PRICE_remaining.
Context {N : Type} `{Number N}.

(** In any arithmetic, nothing remains once every installment is paid. *)
Lemma getPRICERemainingBalance_paid (principal annualRate : N) (months paidMonths : nat) :
  (months <= paidMonths)%nat ->
  getPRICERemainingBalance principal annualRate months paidMonths = of_nat 0.
Proof.
  intros Hk. unfold getPRICERemainingBalance.
  now rewrite (proj2 (Nat.leb_le _ _) Hk).
Qed.

End PRICE_remaining.

Section PRICE_remaining_exact.
Local Open Scope R_scope.

(** C3, in exact arithmetic.  For principal > 0, termMonths >= 1 and a
    monthly rate r = annualRate / 12 with r <> 0, 1 + r <> 0 and
    (1 + r)^n <> 1: after k < n installments the remaining balance is
    max(0, payment * ((1+r)^(n-k) - 1) / (r (1+r)^(n-k))); at k = 0 it is the
    principal; for k >= n it is 0. *)
Theorem PRICE_remaining_exact (P rate : R) (n : nat) :
  0 < P -> (1 <= n)%nat ->
  rate / 12 <> 0 -> 1 + rate / 12 <> 0 -> (1 + rate / 12) ^ n <> 1 ->
  let r := rate / 12 in
  let pay := P * (r * (1 + r) ^ n) / ((1 + r) ^ n - 1) in
  calculatePRICEPayment (Some P) (Some rate) n = Some pay /\
  (forall k, (k < n)%nat ->
     getPRICERemainingBalance (Some P) (Some rate) n k =
     Some (Rmax 0 (pay * (((1 + r) ^ (n - k) - 1) / (r * (1 + r) ^ (n - k)))))) /\
  getPRICERemainingBalance (Some P) (Some rate) n 0 = Some P /\
  (forall k, (n <= k)%nat ->
     getPRICERemainingBalance (Some P) (Some rate) n k = Some 0).
Proof.
  intros HP Hn Hr Hq1 Hqn r pay.
  assert (Hrate : rate <> 0) by (intros ->; apply Hr; lra).
  assert (Hpay : calculatePRICEPayment (Some P) (Some rate) n = Some pay)
    by now apply exact_PRICEPayment.
  assert (Hclosed : forall k, (k < n)%nat ->
     getPRICERemainingBalance (Some P) (Some rate) n k =
     Some (Rmax 0 (pay * (((1 + r) ^ (n - k) - 1) / (r * (1 + r) ^ (n - k)))))).
  { intros k Hk. unfold getPRICERemainingBalance.
    rewrite (proj2 (Nat.leb_gt _ _) Hk), Hpay, exact_monthlyRate.
    rewrite exact_one_plus, exact_pow. fold r.
    change (of_nat 1) with (Some 1). change (of_nat 0) with (Some 0).
    cbn [mul sub exact_number lift2].
    rewrite exact_div_some; [reflexivity|].
    apply Rmult_integral_contrapositive_currified; [exact Hr|].
    now apply pow_nonzero. }
  split; [exact Hpay|]. split; [exact Hclosed|]. split.
  - rewrite Hclosed by lia. rewrite Nat.sub_0_r. f_equal.
    replace (pay * (((1 + r) ^ n - 1) / (r * (1 + r) ^ n))) with P.
    + apply Rmax_right. lra.
    + unfold pay. field. repeat split.
      * now apply pow_nonzero.
      * exact Hr.
      * fold r in Hqn. lra.
  - intros k Hk. now rewrite getPRICERemainingBalance_paid.
Qed.

End PRICE_remaining_exact.

Lemma PRICE_remaining_exact_witness :
  (0 < 100000)%R /\ (1 <= 12)%nat /\
  getPRICERemainingBalance (Some 100000%R) (Some 0.12%R) 12 0 = Some 100000%R.
Proof.
  split; [lra|]. split; [lia|].
  apply (PRICE_remaining_exact 100000 0.12 12); [lra | lia | lra | lra |].
  apply Rgt_not_eq, Rlt_pow_R1; [lra | lia].
Defined.

(** C3 on two nonzero rates.  annualRate = -12 gives r = -1, so that
    r (1 + r)^(n-k) = 0; annualRate = -24 over 2 months gives (1 + r)^2 = 1,
    so that the payment is -Infinity.  In both cases the balance at k = 0 is
    NaN: neither the principal nor a number >= 0. *)
Lemma PRICE_remaining_division_by_zero :
  getPRICERemainingBalance 1%float (-12)%float 1 0 = nan /\
  getPRICERemainingBalance 1%float (-24)%float 2 0 = nan /\
  strict_eq (div (-12)%float 12%float) 0%float = false /\
  strict_eq (div (-24)%float 12%float) 0%float = false /\
  strict_eq nan 1%float = false /\
  (PrimFloat.leb 0 nan) = false.
Proof. vm_compute. repeat split; reflexivity. Qed.

(** ** Balances over a schedule *)

Section Balances.
Context {D : Type} `{DateAPI D}.
Local Open Scope R_scope.

Lemma exact_PRICE_balance_succ (p r P : R) (j : nat) (b : R) :
  PRICE_balance (Some p) (Some r) (Some P) j = Some b ->
  PRICE_balance (Some p) (Some r) (Some P) (S j) = Some (b - (p - b * r)).
Proof.
  unfold PRICE_balance. intros Hb. now rewrite Nat.iter_succ, Hb.
Qed.

(** With a payment that covers the interest on the principal, the running
    balance never exceeds the principal and never goes up. *)
Lemma exact_PRICE_balance_decreasing (p r P : R) :
  0 <= r -> P * r <= p ->
  forall j, exists b b',
    PRICE_balance (Some p) (Some r) (Some P) j = Some b /\
    PRICE_balance (Some p) (Some r) (Some P) (S j) = Some b' /\
    b' <= b /\ b <= P.
Proof.
  intros Hr Hp. induction j as [|j (b & b' & Hb & Hb' & Hle & HbP)].
  - exists P, (P - (p - P * r)). repeat split; try reflexivity; lra.
  - exists b', (b' - (p - b' * r)).
    split; [exact Hb'|]. split; [now apply exact_PRICE_balance_succ|].
    split; [nra | lra].
Qed.

Lemma exact_PRICEPayment_covers_interest (P rate : R) (n : nat) :
  0 < P -> (1 <= n)%nat -> 0 <= rate ->
  exists p, calculatePRICEPayment (Some P) (Some rate) n = Some p /\
            P * (rate / 12) <= p.
Proof.
  intros HP Hn Hrate.
  assert (Hn0 : 0 < INR n) by (apply lt_0_INR; lia).
  destruct (Req_dec_T rate 0) as [->|Hnz].
  - exists (P / INR n). split; [now apply exact_PRICEPayment_zero_rate|].
    replace (P * (0 / 12)) with 0 by lra.
    apply Rlt_le, Rdiv_lt_0_compat; assumption.
  - assert (Hq : 1 < (1 + rate / 12) ^ n) by (apply Rlt_pow_R1; [lra | lia]).
    eexists. split; [apply exact_PRICEPayment; [exact Hnz | lra]|].
    set (q := (1 + rate / 12) ^ n) in *.
    replace (P * (rate / 12 * q) / (q - 1))
      with (P * (rate / 12) + P * (rate / 12) / (q - 1)) by (field; lra).
    assert (0 <= P * (rate / 12) / (q - 1)); [|lra].
    apply Rmult_le_pos; [nra|]. apply Rlt_le, Rinv_0_lt_compat. lra.
Qed.

Lemma exact_PRICE_row (P rate p : R) (n : nat) (d : D) (j : nat) :
  calculatePRICEPayment (Some P) (Some rate) n = Some p -> (j < n)%nat ->
  option_map balance (nth_error (generatePRICETable (Some P) (Some rate) n d) j) =
  Some (Math_max (of_nat 0)
          (PRICE_balance (Some p) (Some (rate / 12)) (Some P) (S j))).
Proof.
  intros Hp Hj. unfold generatePRICETable.
  rewrite Hp, exact_monthlyRate, PRICE_loop_nth by assumption. reflexivity.
Qed.

(** In exact arithmetic, for principal > 0, termMonths >= 1 and
    annualRate >= 0, in the SAC schedule and in the PRICE schedule every
    row's balance is >= 0 and no row's balance exceeds that of the row
    above. *)
Lemma exact_balances_nonneg_nonincreasing (P rate : R) (n : nat) (d : D) :
  0 < P -> (1 <= n)%nat -> 0 <= rate ->
  forall table,
    table = generateSACTable (Some P) (Some rate) n d \/
    table = generatePRICETable (Some P) (Some rate) n d ->
    (forall j row, nth_error table j = Some row ->
       exact_le (of_nat 0) (balance row)) /\
    (forall j row row', nth_error table j = Some row ->
       nth_error table (S j) = Some row' ->
       exact_le (balance row') (balance row)).
Proof.
  intros HP Hn Hrate table [-> | ->].
  - assert (Hlen : length (generateSACTable (Some P) (Some rate) n d) = n).
    { rewrite exact_generateSACTable by assumption. apply SAC_loop_length. }
    assert (Ha : 0 <= P / INR n).
    { apply Rlt_le, Rdiv_lt_0_compat; [assumption | apply lt_0_INR; lia]. }
    split.
    + intros j row Hrow.
      assert (Hj : (j < n)%nat) by (rewrite <- Hlen; apply nth_error_Some; congruence).
      rewrite exact_SAC_row in Hrow by assumption. injection Hrow as <-.
      cbn. apply Rmax_l.
    + intros j row row' Hrow Hrow'.
      assert (Hj : (S j < n)%nat) by (rewrite <- Hlen; apply nth_error_Some; congruence).
      rewrite exact_SAC_row in Hrow by (assumption || lia).
      rewrite exact_SAC_row in Hrow' by assumption.
      injection Hrow as <-. injection Hrow' as <-. cbn [balance exact_le].
      apply Rle_max_compat_l.
      match goal with
      | |- _ - (?x + 1) * _ <= _ => generalize x; intros x'; nra
      end.
  - destruct (exact_PRICEPayment_covers_interest P rate n HP Hn Hrate) as (p & Hp & Hcov).
    assert (Hlen : length (generatePRICETable (Some P) (Some rate) n d) = n)
      by apply PRICE_loop_length.
    assert (Hr : 0 <= rate / 12) by lra.
    split.
    + intros j row Hrow.
      assert (Hj : (j < n)%nat) by (rewrite <- Hlen; apply nth_error_Some; congruence).
      pose proof (exact_PRICE_row P rate p n d j Hp Hj) as Hb.
      rewrite Hrow in Hb. cbn [option_map] in Hb.
      destruct (exact_PRICE_balance_some p (rate / 12) P (S j)) as [b Hbj].
      rewrite Hbj in Hb.
      replace (balance row) with (Math_max (of_nat 0) (Some b)) by congruence.
      cbn. apply Rmax_l.
    + intros j row row' Hrow Hrow'.
      assert (Hj : (S j < n)%nat) by (rewrite <- Hlen; apply nth_error_Some; congruence).
      pose proof (exact_PRICE_row P rate p n d j Hp ltac:(lia)) as Hb.
      pose proof (exact_PRICE_row P rate p n d (S j) Hp Hj) as Hb'.
      rewrite Hrow in Hb. rewrite Hrow' in Hb'. cbn [option_map] in Hb, Hb'.
      destruct (exact_PRICE_balance_decreasing p (rate / 12) P Hr Hcov (S j))
        as (b & b' & Hbj & Hbj' & Hle & _).
      rewrite Hbj in Hb. rewrite Hbj' in Hb'.
      replace (balance row) with (Math_max (of_nat 0) (Some b)) by congruence.
      replace (balance row') with (Math_max (of_nat 0) (Some b')) by congruence.
      cbn. now apply Rle_max_compat_l.
Qed.

End Balances.

(** C4, as the code has it.  On binary64, for every input, the balance
    field of every row of either schedule is [Math.max(0, _)] of the running
    balance: it is >= 0 unless it is NaN.  In exact arithmetic, for
    principal > 0, termMonths >= 1 and annualRate >= 0, every balance field
    of either schedule is >= 0 and the balance fields never increase from
    one row to the next. *)
Theorem balances_clamped_and_nonincreasing :
  (forall (D : Type) (HD : DateAPI D)
          (principal annualRate : float) (months : nat) (d : D) table,
     table = generateSACTable principal annualRate months d \/
     table = generatePRICETable principal annualRate months d ->
     forall row, In row table ->
       is_nan (balance row) = true \/ PrimFloat.leb 0 (balance row) = true) /\
  (forall (D : Type) (HD : DateAPI D) (P rate : R) (n : nat) (d : D),
     (0 < P)%R -> (1 <= n)%nat -> (0 <= rate)%R ->
     forall table,
       table = generateSACTable (Some P) (Some rate) n d \/
       table = generatePRICETable (Some P) (Some rate) n d ->
       (forall j row, nth_error table j = Some row ->
          exact_le (of_nat 0) (balance row)) /\
       (forall j row row', nth_error table j = Some row ->
          nth_error table (S j) = Some row' ->
          exact_le (balance row') (balance row))).
Proof.
  split.
  - intros D HD principal annualRate months d table [-> | ->] row Hin.
    + destruct (SAC_loop_clamped _ _ _ _ _ _ _ Hin) as [b ->].
      apply float_max_zero.
    + destruct (PRICE_loop_clamped _ _ _ _ _ _ _ Hin) as [b ->].
      apply float_max_zero.
  - intros D HD P rate n d. apply exact_balances_nonneg_nonincreasing.
Qed.

Lemma balances_clamped_and_nonincreasing_witness :
  (0 < 100000)%R /\ (1 <= 12)%nat /\ (0 <= 0.12)%R /\
  (forall j row,
     nth_error (generatePRICETable (Some 100000%R) (Some 0.12%R) 12 jan2024) j
     = Some row -> exact_le (of_nat 0) (balance row)).
Proof.
  split; [lra|]. split; [lia|]. split; [lra|].
  apply (proj2 balances_clamped_and_nonincreasing YearMonth yearMonth_date
           100000%R 0.12%R 12 jan2024);
    [lra | lia | lra |].
  right. reflexivity.
Defined.

(** C4 on binary64, beyond the range of doubles.  A loan of 1 at
    annualRate = 12 (r = 1) over 1024 months: (1 + r)^1024 = 2^1024 is
    Infinity, the payment is Infinity / Infinity = NaN, and the balance of
    every row is NaN, which is not >= 0. *)
Lemma PRICE_balance_overflow :
  let table := generatePRICETable 1%float 12%float 1024 jan2024 in
  Math_pow 2%float 1024 = infinity /\
  calculatePRICEPayment 1%float 12%float 1024 = nan /\
  length table = 1024 /\
  forallb (fun row => is_nan (balance row)) table = true /\
  existsb (fun row => PrimFloat.leb 0 (balance row)) table = false.
Proof. vm_compute. repeat split; reflexivity. Qed.


(** ** Income statement (DRE) *)

Section DRE_exact.
Local Open Scope R_scope.

(** C5, as the code has it.  In any arithmetic and for every input object,
    each subtotal of the income statement is the stated sum or difference of
    the lines above it, and each margin is computed as its line divided by
    [receitaBruta] under the guard [receitaBruta > 0], and as 0 otherwise.
    In exact arithmetic, for fields that are absent or numbers, the three
    margins are line / receitaBruta when receitaBruta > 0 and are 0 when
    receitaBruta <= 0: for a zero and for a negative gross revenue alike. *)
Theorem calculateDRE_pipeline :
  (forall (N : Type) (HN : Number N) (data : DREData N),
     let r := calculateDRE data in
     (receitaBruta r = default0 (in_receitaBruta data) /\
      custosVariaveis r = default0 (in_custosVariaveis data) /\
      despesasFixas r = default0 (in_despesasFixas data) /\
      depreciacao r = default0 (in_depreciacao data) /\
      despesasFinanceiras r = default0 (in_despesasFinanceiras data) /\
      receitasFinanceiras r = default0 (in_receitasFinanceiras data) /\
      ir r = default0 (in_ir data) /\
      csll r = default0 (in_csll data)) /\
     (deducoes r =
        add (default0 (in_taxasPlataforma data)) (default0 (in_impostos data)) /\
      receitaLiquida r = sub (receitaBruta r) (deducoes r) /\
      lucroBruto r = sub (receitaLiquida r) (custosVariaveis r) /\
      ebitda r = sub (lucroBruto r) (despesasFixas r) /\
      ebit r = sub (ebitda r) (depreciacao r) /\
      lair r = add (sub (ebit r) (despesasFinanceiras r)) (receitasFinanceiras r) /\
      lucroLiquido r = sub (sub (lair r) (ir r)) (csll r)) /\
     (margemBruta r =
        (if gt (receitaBruta r) (of_nat 0)
         then div (lucroBruto r) (receitaBruta r) else of_nat 0) /\
      margemEbitda r =
        (if gt (receitaBruta r) (of_nat 0)
         then div (ebitda r) (receitaBruta r) else of_nat 0) /\
      margemLiquida r =
        (if gt (receitaBruta r) (of_nat 0)
         then div (lucroLiquido r) (receitaBruta r) else of_nat 0))) /\
  (forall data : DREData exactnum,
     DREData_numbers data ->
     let r := calculateDRE data in
     exists rb lb eb ll : R,
       receitaBruta r = Some rb /\ lucroBruto r = Some lb /\
       ebitda r = Some eb /\ lucroLiquido r = Some ll /\
       (0 < rb ->
        margemBruta r = Some (lb / rb) /\ margemEbitda r = Some (eb / rb) /\
        margemLiquida r = Some (ll / rb)) /\
       (rb <= 0 ->
        margemBruta r = Some 0 /\ margemEbitda r = Some 0 /\
        margemLiquida r = Some 0)).
Proof.
  split.
  - intros N HN data. cbv zeta. repeat split.
  - intros data (H1 & H2 & H3 & H4 & H5 & H6 & H7 & H8 & H9 & H10). cbv zeta.
    unfold calculateDRE.
    destruct (default0_number _ H1) as [rb ->].
    destruct (default0_number _ H2) as [x2 ->].
    destruct (default0_number _ H3) as [x3 ->].
    destruct (default0_number _ H4) as [x4 ->].
    destruct (default0_number _ H5) as [x5 ->].
    destruct (default0_number _ H6) as [x6 ->].
    destruct (default0_number _ H7) as [x7 ->].
    destruct (default0_number _ H8) as [x8 ->].
    destruct (default0_number _ H9) as [x9 ->].
    destruct (default0_number _ H10) as [x10 ->].
    cbn [receitaBruta lucroBruto ebitda lucroLiquido
         margemBruta margemEbitda margemLiquida].
    change (of_nat 0) with (Some 0). cbn [add sub exact_number lift2].
    do 4 eexists. do 4 (split; [reflexivity|]). split.
    + intros Hpos. rewrite exact_gt_true by exact Hpos.
      rewrite !exact_div_some by lra. repeat split.
    + intros Hneg. rewrite exact_gt_false by exact Hneg. repeat split.
Qed.

End DRE_exact.

Lemma calculateDRE_pipeline_witness :
  DREData_numbers sample_income /\
  margemBruta (calculateDRE sample_income) = Some ((1000 - (0 + 100) - 300) / 1000)%R.
Proof.
  assert (Hn : DREData_numbers sample_income).
  { unfold DREData_numbers, is_number, sample_income; cbn.
    repeat split; discriminate. }
  split; [exact Hn|].
  destruct (proj2 calculateDRE_pipeline sample_income Hn)
    as (rb & lb & eb & ll & Hrb & Hlb & _ & _ & Hpos & _).
  injection Hrb as <-. injection Hlb as <-.
  apply Hpos. lra.
Defined.

(** C5 at a negative gross revenue.  receitaBruta = -100 with nothing else:
    the gross profit is -100, so the line divided by the gross revenue is 1,
    and the three margins returned are 0. *)
Lemma calculateDRE_negative_revenue :
  let r := calculateDRE negative_revenue in
  receitaBruta r = (-100)%float /\
  div (lucroBruto r) (receitaBruta r) = 1%float /\
  div (ebitda r) (receitaBruta r) = 1%float /\
  div (lucroLiquido r) (receitaBruta r) = 1%float /\
  margemBruta r = 0%float /\ margemEbitda r = 0%float /\ margemLiquida r = 0%float /\
  strict_eq (margemBruta r) (div (lucroBruto r) (receitaBruta r)) = false.
Proof. vm_compute. repeat split; reflexivity. Qed.

(** ** Cash-flow statement *)

Section CashFlow_exact.
Local Open Scope R_scope.

(** C6, as the code has it.  In any arithmetic, fluxoTotal is the three
    activity totals added from left to right and saldoFinal is
    saldoInicial + fluxoTotal.  In exact arithmetic, for fields that are
    absent or numbers, saldoFinal = saldoInicial + operating + investing +
    financing, and saldoFinal - saldoInicial = fluxoTotal. *)
Theorem calculateCashFlow_articulation :
  (forall (N : Type) (HN : Number N) (data : CashFlowData N),
     let cf := calculateCashFlow data in
     fluxoTotal cf =
       add (add (operacional_total (operacional cf))
                (investimento_total (investimento cf)))
           (financiamento_total (financiamento cf)) /\
     saldoFinal cf = add (saldoInicial cf) (fluxoTotal cf)) /\
  (forall data : CashFlowData exactnum,
     CashFlowData_numbers data ->
     let cf := calculateCashFlow data in
     exists s op inv fin : R,
       saldoInicial cf = Some s /\
       operacional_total (operacional cf) = Some op /\
       investimento_total (investimento cf) = Some inv /\
       financiamento_total (financiamento cf) = Some fin /\
       saldoFinal cf = Some (s + op + inv + fin) /\
       sub (saldoFinal cf) (saldoInicial cf) = fluxoTotal cf).
Proof.
  split.
  - intros N HN data. cbv zeta. split; reflexivity.
  - intros data (H1 & H2 & H3 & H4 & H5 & H6 & H7 & H8 & H9). cbv zeta.
    unfold calculateCashFlow.
    destruct (default0_number _ H1) as [x1 ->].
    destruct (default0_number _ H2) as [x2 ->].
    destruct (default0_number _ H3) as [x3 ->].
    destruct (default0_number _ H4) as [x4 ->].
    destruct (default0_number _ H5) as [x5 ->].
    destruct (default0_number _ H6) as [x6 ->].
    destruct (default0_number _ H7) as [x7 ->].
    destruct (default0_number _ H8) as [x8 ->].
    destruct (default0_number _ H9) as [x9 ->].
    exists x9, (x1 - x2 - x3), (x5 - x4), (x6 - x7 - x8). cbn.
    repeat split; f_equal; lra.
Qed.

End CashFlow_exact.

Lemma calculateCashFlow_articulation_witness :
  CashFlowData_numbers sample_cash_flow /\
  sub (saldoFinal (calculateCashFlow sample_cash_flow))
      (saldoInicial (calculateCashFlow sample_cash_flow))
  = fluxoTotal (calculateCashFlow sample_cash_flow).
Proof.
  assert (Hn : CashFlowData_numbers sample_cash_flow).
  { unfold CashFlowData_numbers, is_number, sample_cash_flow; cbn.
    repeat split; discriminate. }
  split; [exact Hn|].
  destruct (proj2 calculateCashFlow_articulation sample_cash_flow Hn)
    as (s & op & inv & fin & _ & _ & _ & _ & _ & Hdiff).
  exact Hdiff.
Defined.

(** C6 on binary64.  With saldoInicial = 0.1 and recebimentos = 0.2 the
    period total is 0.2 and the closing balance is 0.30000000000000004;
    closing minus opening is 0.20000000000000004, not the period total. *)
Lemma calculateCashFlow_binary64_rounding :
  let cf := calculateCashFlow tenth_and_fifth in
  fluxoTotal cf = 0.2%float /\
  saldoFinal cf = 0.30000000000000004%float /\
  sub (saldoFinal cf) (saldoInicial cf) = 0.20000000000000004%float /\
  strict_eq (sub (saldoFinal cf) (saldoInicial cf)) (fluxoTotal cf) = false.
Proof. vm_compute. repeat split; reflexivity. Qed.

(** ** Discounted cash flow *)

Section DCF_exact.
Local Open Scope R_scope.

(** C7, in exact arithmetic.  For a discount rate r > 0 and a single cash
    flow X with terminal growth 0, the enterprise value is
    X / (1 + r) + X / (r (1 + r)). *)
Theorem calculateDCF_single_flow (X r : R) :
  0 < r ->
  enterpriseValue (calculateDCF [Some X] (Some r) (Some 0)) =
  Some (X / (1 + r) + X / (r * (1 + r))).
Proof.
  intros Hr. unfold calculateDCF.
  cbn [DCF_forEach length array_get Z.of_nat enterpriseValue].
  change (array_get [Some X] (Z.of_nat 1 - 1)) with (Some (Some X)).
  cbn [to_number Nat.add]. rewrite exact_one_plus, exact_pow.
  change (of_nat 1) with (Some 1). change (of_nat 0) with (Some 0).
  cbn [add sub mul exact_number lift2].
  rewrite (exact_div_some X) by (simpl; lra).
  rewrite (exact_div_some (X * (1 + 0))) by lra.
  rewrite exact_div_some by (simpl; lra).
  cbn [lift2]. f_equal. simpl. field. lra.
Qed.

End DCF_exact.

Lemma calculateDCF_single_flow_witness :
  (0 < 0.1)%R /\
  enterpriseValue (calculateDCF [Some 1000%R] (Some 0.1%R) (Some 0%R)) =
  Some (1000 / (1 + 0.1) + 1000 / (0.1 * (1 + 0.1)))%R.
Proof.
  split; [lra|]. apply (calculateDCF_single_flow 1000 0.1). lra.
Defined.

(** C7 on binary64.  X = 50000 at r = 0.15: the enterprise value returned
    is 333333.33333333343 and the closed form evaluates to
    333333.33333333337. *)
Lemma calculateDCF_binary64_rounding :
  enterpriseValue (calculateDCF [50000%float] 0.15%float 0%float)
  = 333333.33333333343%float /\
  add (div 50000%float (add 1%float 0.15%float))
      (div 50000%float (mul 0.15%float (add 1%float 0.15%float)))
  = 333333.33333333337%float /\
  strict_eq (enterpriseValue (calculateDCF [50000%float] 0.15%float 0%float))
    (add (div 50000%float (add 1%float 0.15%float))
         (div 50000%float (mul 0.15%float (add 1%float 0.15%float))))
  = false.
Proof. vm_compute. repeat split; reflexivity. Qed.

(** ** Property metrics at a zero denominator *)

(** C8 on binary64.  With a zero denominator the cap rate, the
    cash-on-cash return, the LTV and the percent appreciation are 0 whatever
    the numerator.  The annualized return is not guarded against a zero
    purchase price: for purchasePrice = 0, currentValue = 100 and years = 1
    it is Math.pow(100 / 0, 1 / 1) - 1 = Math.pow(Infinity, 1) - 1, whatever
    [Math.pow] is; with the platform's Math.pow(Infinity, 1) = Infinity that
    is Infinity. *)
Theorem property_metrics_zero_denominator :
  (forall noi : float, calculateCapRate noi 0%float = 0%float) /\
  (forall annualCashFlow : float, calculateCashOnCash annualCashFlow 0%float = 0%float) /\
  (forall loanAmount : float, calculateLTV loanAmount 0%float = 0%float) /\
  (forall (pow : float -> float -> float) (currentValue years : float),
     percentAppreciation (calculateAppreciation pow 0%float currentValue years)
     = 0%float) /\
  (forall pow : float -> float -> float,
     annualizedReturn (calculateAppreciation pow 0%float 100%float 1%float)
     = sub (pow infinity 1%float) 1%float) /\
  sub infinity 1%float = infinity /\
  strict_eq infinity 0%float = false.
Proof. repeat split. Qed.

(** ** Consortium *)

Section Consortium_exact.
Local Open Scope R_scope.

(** C9, in exact arithmetic.  For creditAmount <> 0 and months <> 0 the
    effective rate is adminFee + reserveFund + insurance and the total cost
    is creditAmount times that sum. *)
Theorem calculateConsortium_effectiveRate (c a f i m : R) :
  c <> 0 -> m <> 0 ->
  let r := calculateConsortium (Some c) (Some a) (Some f) (Some i) (Some m) in
  effectiveRate r = Some (a + f + i) /\
  totalCost r = Some (c * (a + f + i)).
Proof.
  intros Hc Hm. cbv zeta. unfold calculateConsortium.
  cbn [effectiveRate totalCost].
  rewrite (exact_div_some c m) by exact Hm.
  change (of_nat 1) with (Some 1). cbn [add sub mul exact_number lift2].
  rewrite exact_div_some by exact Hc.
  split; f_equal; field; auto.
Qed.

End Consortium_exact.

Lemma calculateConsortium_effectiveRate_witness :
  (200000 <> 0)%R /\ (100 <> 0)%R /\
  effectiveRate (calculateConsortium (Some 200000%R) (Some 0.15%R) (Some 0.05%R)
                   (Some 0.02%R) (Some 100%R))
  = Some (0.15 + 0.05 + 0.02)%R.
Proof.
  split; [lra|]. split; [lra|].
  apply (calculateConsortium_effectiveRate 200000 0.15 0.05 0.02 100); lra.
Defined.

(** C9 on binary64.  A credit of 100000 over 60 months with fees 0.15,
    0.05 and 0.02: the fees add up to 0.22, the total cost returned is
    22000.000000000015 and the effective rate 0.22000000000000014. *)
Lemma calculateConsortium_binary64_rounding :
  let r := calculateConsortium 100000%float 0.15%float 0.05%float 0.02%float
             60%float in
  add (add 0.15%float 0.05%float) 0.02%float = 0.22%float /\
  effectiveRate r = 0.22000000000000014%float /\
  totalCost r = 22000.000000000015%float /\
  strict_eq (effectiveRate r) 0.22%float = false /\
  strict_eq (totalCost r) (mul 100000%float 0.22%float) = false.
Proof. vm_compute. repeat split; reflexivity. Qed.

(** ** Discounted cash flow of an empty projection *)


(** Reading the last element finds nothing exactly when the array is empty. *)
Lemma array_get_last_none {A : Type} (cashFlows : list A) :
  array_get cashFlows (Z.of_nat (length cashFlows) - 1) = None <->
  cashFlows = [].
Proof.
  split.
  - destruct cashFlows as [|cf rest]; [reflexivity|].
    unfold array_get. intros Hget.
    replace (Z.of_nat (length (cf :: rest)) - 1)%Z with (Z.of_nat (length rest))
      in Hget by (cbn [length]; lia).
    destruct (Z.ltb_spec (Z.of_nat (length rest)) 0); [lia|].
    rewrite Nat2Z.id in Hget. apply nth_error_None in Hget. cbn [length] in Hget. lia.
  - intros ->. reflexivity.
Qed.

(** C10.  For an empty cash-flow array and any rates, [calculateDCF]
    returns pvCashFlows = 0 and NaN for terminalValue, pvTerminalValue and
    enterpriseValue (on binary64; no number, in exact arithmetic): the read
    of the last element is out of range, at index -1, and in general that
    read finds nothing exactly when the array is empty. *)
Theorem calculateDCF_empty :
  (forall discountRate terminalGrowthRate : float,
     calculateDCF [] discountRate terminalGrowthRate = mkDCF 0%float nan nan nan) /\
  (forall discountRate terminalGrowthRate : exactnum,
     calculateDCF [] discountRate terminalGrowthRate
     = mkDCF (Some 0%R) None None None) /\
  (Z.of_nat (length (@nil float)) - 1 = -1)%Z /\
  (forall (N : Type) (cashFlows : list N),
     array_get cashFlows (Z.of_nat (length cashFlows) - 1) = None <->
     cashFlows = []).
Proof.
  split; [|split; [|split]].
  - intros d g. unfold calculateDCF.
    cbn [DCF_forEach length array_get Z.of_nat Z.sub Z.add Z.opp Z.ltb Z.compare
         to_number Math_pow NaN of_nat add sub mul div binary64].
    rewrite float_mul_nan_l, float_div_nan_l. reflexivity.
  - intros d g. unfold calculateDCF.
    cbn [DCF_forEach length array_get Z.of_nat Z.sub Z.add Z.opp Z.ltb Z.compare
         to_number Math_pow NaN of_nat add sub mul div exact_number lift2 exact_div].
    reflexivity.
  - reflexivity.
  - intros N cashFlows. apply array_get_last_none.
Qed.

(** ** The scenarios of the specification, run on binary64 *)

(** SAC, principal 120000 at 12% over 12 months: installment 1 has interest
    1200, amortization 10000, payment 11200 and balance 110000; installment
    12 has balance 0. *)
Example SAC_scenario :
  let table := generateSACTable 120000%float 0.12%float 12 jan2024 in
  nth_error table 0
  = Some (mkRow 1 jan2024 11200%float 1200%float 10000%float 110000%float) /\
  map balance (skipn 11 table) = [0%float].
Proof. vm_compute. split; reflexivity. Qed.

(** PRICE, principal 100000 at rate 0 over 10 months: the payment is 10000
    in all 10 rows. *)
Example PRICE_zero_rate_scenario :
  map payment (generatePRICETable 100000%float 0%float 10 jan2024)
  = repeat 10000%float 10.
Proof. vm_compute. reflexivity. Qed.

(** Consortium, credit 200000 with fees 0.15, 0.05 and 0.02 over 100
    months: monthly payment 2440, total paid 244000, total cost 44000,
    effective rate 0.22. *)
Example consortium_scenario :
  calculateConsortium 200000%float 0.15%float 0.05%float 0.02%float 100%float
  = mkConsortium 2440%float 244000%float 44000%float 0.22%float.
Proof. vm_compute. reflexivity. Qed.

(** ** Remaining balances against the schedules *)

Section Remaining_closed_form.
Local Open Scope R_scope.

Lemma PRICE_remaining_exact_aux (P rate : R) (n : nat) :
  0 < P -> (1 <= n)%nat ->
  rate / 12 <> 0 -> 1 + rate / 12 <> 0 -> (1 + rate / 12) ^ n <> 1 ->
  forall k, (k < n)%nat ->
    getPRICERemainingBalance (Some P) (Some rate) n k =
    Some (Rmax 0 (P * (rate / 12 * (1 + rate / 12) ^ n) / ((1 + rate / 12) ^ n - 1)
                  * (((1 + rate / 12) ^ (n - k) - 1)
                     / (rate / 12 * (1 + rate / 12) ^ (n - k))))).
Proof.
  intros HP Hn Hr Hq1 Hqn k Hk.
  assert (Hrate : rate <> 0) by (intros ->; apply Hr; lra).
  unfold getPRICERemainingBalance.
  rewrite (proj2 (Nat.leb_gt _ _) Hk), exact_PRICEPayment, exact_monthlyRate
    by assumption.
  rewrite exact_one_plus, exact_pow.
  change (of_nat 1) with (Some 1). change (of_nat 0) with (Some 0).
  cbn [mul sub exact_number lift2].
  rewrite exact_div_some; [reflexivity|].
  apply Rmult_integral_contrapositive_currified; [exact Hr|].
  now apply pow_nonzero.
Qed.

End Remaining_closed_form.


Section Remaining_exact.
Context {D : Type} `{DateAPI D}.
Local Open Scope R_scope.

Lemma exact_getSACRemainingBalance (P : R) (n k : nat) :
  (1 <= n)%nat ->
  getSACRemainingBalance (Some P) n k = Some (Rmax 0 (P - P / INR n * INR k)).
Proof.
  intros Hn. unfold getSACRemainingBalance.
  rewrite !exact_of_nat, exact_div_some by (apply not_0_INR; lia).
  reflexivity.
Qed.

(** In exact arithmetic, for principal > 0 and termMonths >= 1, the closed
    form [getSACRemainingBalance] agrees with the SAC schedule: it is the
    principal before any installment, the balance field of row k after k
    installments, and 0 from termMonths installments on. *)
Theorem SAC_remaining_matches_schedule (P rate : R) (n : nat) (d : D) :
  0 < P -> (1 <= n)%nat ->
  getSACRemainingBalance (Some P) n 0 = Some P /\
  (forall k row, (1 <= k)%nat ->
     nth_error (generateSACTable (Some P) (Some rate) n d) (k - 1) = Some row ->
     balance row = getSACRemainingBalance (Some P) n k) /\
  (forall k, (n <= k)%nat -> getSACRemainingBalance (Some P) n k = Some 0).
Proof.
  intros HP Hn.
  assert (Hn0 : 0 < INR n) by (apply lt_0_INR; lia).
  split; [|split].
  - rewrite exact_getSACRemainingBalance by assumption. f_equal.
    simpl. rewrite Rmax_right; lra.
  - intros k row Hk Hrow.
    assert (Hlen : length (generateSACTable (Some P) (Some rate) n d) = n).
    { rewrite exact_generateSACTable by assumption. apply SAC_loop_length. }
    assert (Hj : (k - 1 < n)%nat).
    { rewrite <- Hlen. apply nth_error_Some. congruence. }
    rewrite exact_SAC_row in Hrow by assumption.
    apply (f_equal (option_map balance)) in Hrow.
    cbn [option_map balance] in Hrow.
    rewrite exact_getSACRemainingBalance by assumption.
    replace (balance row)
      with (Some (Rmax 0 (P - INR (S (k - 1)) * (P / INR n)))) by congruence.
    replace (S (k - 1)) with k by lia. do 2 f_equal. lra.
  - intros k Hk. rewrite exact_getSACRemainingBalance by assumption. f_equal.
    apply Rmax_left.
    assert (Hkn : INR n <= INR k) by (apply le_INR; lia).
    replace (P - P / INR n * INR k) with (P * ((INR n - INR k) / INR n))
      by (field; lra).
    assert (0 <= P * ((INR k - INR n) / INR n)); [|lra].
    apply Rmult_le_pos; [lra|]. apply Rmult_le_pos; [lra|].
    apply Rlt_le, Rinv_0_lt_compat; assumption.
Qed.

(** In exact arithmetic, for principal > 0, termMonths >= 1 and a monthly
    rate r with r <> 0, 1 + r <> 0 and (1 + r)^n <> 1, the closed form
    [getPRICERemainingBalance] agrees with the PRICE schedule: after k
    installments, 1 <= k <= n, it is the balance field of row k; and the
    last row's balance is 0. *)
Theorem PRICE_remaining_matches_schedule (P rate : R) (n : nat) (d : D) :
  0 < P -> (1 <= n)%nat ->
  rate / 12 <> 0 -> 1 + rate / 12 <> 0 -> (1 + rate / 12) ^ n <> 1 ->
  (forall k row, (1 <= k)%nat ->
     nth_error (generatePRICETable (Some P) (Some rate) n d) (k - 1) = Some row ->
     balance row = getPRICERemainingBalance (Some P) (Some rate) n k) /\
  (exists row,
     nth_error (generatePRICETable (Some P) (Some rate) n d) (n - 1) = Some row /\
     balance row = Some 0).
Proof.
  intros HP Hn Hr Hq1 Hqn.
  set (r := rate / 12) in *.
  set (pay := P * (r * (1 + r) ^ n) / ((1 + r) ^ n - 1)).
  assert (Hrate : rate <> 0) by (intros ->; apply Hr; unfold r; lra).
  assert (Hpay : calculatePRICEPayment (Some P) (Some rate) n = Some pay)
    by now apply exact_PRICEPayment.
  assert (Hlen : length (generatePRICETable (Some P) (Some rate) n d) = n)
    by apply PRICE_loop_length.
  assert (Hrow : forall k, (1 <= k <= n)%nat ->
     option_map balance
       (nth_error (generatePRICETable (Some P) (Some rate) n d) (k - 1))
     = Some (Some (Rmax 0 (P * (1 + r) ^ k - pay * ((1 + r) ^ k - 1) / r)))).
  { intros k Hk.
    rewrite (exact_PRICE_row P rate pay n d (k - 1) Hpay) by lia.
    replace (S (k - 1)) with k by lia. fold r.
    now rewrite exact_PRICE_balance by exact Hr. }
  assert (Hlast : P * (1 + r) ^ n - pay * ((1 + r) ^ n - 1) / r = 0).
  { unfold pay. field. split; lra. }
  split.
  - intros k row Hk Hnth.
    assert (Hkn : (k - 1 < n)%nat).
    { rewrite <- Hlen. apply nth_error_Some. congruence. }
    pose proof (Hrow k ltac:(lia)) as Hb. rewrite Hnth in Hb.
    cbn [option_map] in Hb.
    replace (balance row)
      with (Some (Rmax 0 (P * (1 + r) ^ k - pay * ((1 + r) ^ k - 1) / r)))
      by congruence.
    destruct (Nat.eq_dec k n) as [-> | Hne].
    + rewrite getPRICERemainingBalance_paid by lia.
      rewrite Hlast. cbn. f_equal. apply Rmax_left. lra.
    + rewrite (PRICE_remaining_exact_aux P rate n HP Hn Hr Hq1 Hqn k ltac:(lia)).
      fold r pay. do 2 f_equal.
      assert (Hqk : (1 + r) ^ (n - k) <> 0) by now apply pow_nonzero.
      assert (Hsplit : (1 + r) ^ n = (1 + r) ^ k * (1 + r) ^ (n - k)).
      { rewrite <- pow_add. f_equal. lia. }
      assert (HqkK : (1 + r) ^ k <> 0) by now apply pow_nonzero.
      unfold pay. rewrite Hsplit. field.
      repeat split; try assumption. rewrite <- Hsplit. fold r in Hqn. lra.
  - destruct (nth_error (generatePRICETable (Some P) (Some rate) n d) (n - 1))
      as [row|] eqn:Hnth.
    + exists row. split; [reflexivity|].
      pose proof (Hrow n ltac:(lia)) as Hb. rewrite Hnth in Hb.
      cbn [option_map] in Hb. rewrite Hlast in Hb.
      replace (balance row) with (Some (Rmax 0 0)) by congruence.
      f_equal. apply Rmax_left. lra.
    + apply nth_error_None in Hnth. lia.
Qed.

End Remaining_exact.

(** ** The PRICE closed form at a zero rate *)

Section Zero_rate.
Local Open Scope float_scope.

Lemma float_mul_nan_r (x : float) : x * nan = nan.
Proof.
  apply Prim2SF_inj. rewrite FloatAxioms.mul_spec, Prim2SF_nan.
  destruct (Prim2SF x); reflexivity.
Qed.

Lemma float_pow_one (n : nat) : Math_pow 1 n = 1.
Proof.
  induction n as [|n IH]; [reflexivity|].
  cbn [Math_pow]. rewrite IH. reflexivity.
Qed.

(** On binary64, for a loan at annualRate = 0 with installments still due
    (paidMonths < months), [getPRICERemainingBalance] is NaN whatever the
    principal: the payment has a zero-rate guard, the closed form of the
    balance has none and computes 0 / 0. *)
Theorem PRICE_remaining_zero_rate_nan (principal : float) (months paidMonths : nat) :
  (paidMonths < months)%nat ->
  getPRICERemainingBalance principal 0 months paidMonths = nan.
Proof.
  intros Hk. unfold getPRICERemainingBalance.
  rewrite (proj2 (Nat.leb_gt _ _) Hk).
  change (div 0 (of_nat 12)) with 0.
  change (add (of_nat 1) 0) with 1.
  rewrite float_pow_one.
  change (div (sub 1 (of_nat 1)) (mul 0 1)) with nan.
  rewrite float_mul_nan_r. reflexivity.
Qed.

End Zero_rate.

Lemma PRICE_remaining_zero_rate_nan_witness :
  (0 < 10)%nat /\
  getPRICERemainingBalance 100000%float 0%float 10 0 = nan.
Proof.
  split; [lia|]. apply (PRICE_remaining_zero_rate_nan 100000%float 10 0). lia.
Defined.

(** ** What a SAC loan costs *)

Section SAC_cost.
Context {D : Type} `{DateAPI D}.
Local Open Scope R_scope.

Lemma exact_SAC_interest_sum (a r : R) (d : D) (k : nat) : forall (i : nat) (b acc : R),
  fold_left add (map interest (SAC_loop (Some a) (Some r) d i (Some b) k)) (Some acc)
  = Some (acc + r * (INR k * b - a * (INR k * (INR k - 1) / 2))).
Proof.
  induction k as [|k IH]; intros i b acc.
  - cbn. f_equal. lra.
  - cbn [SAC_loop map fold_left interest].
    cbn [add sub mul exact_number lift2]. rewrite IH, S_INR. f_equal. field.
Qed.

Lemma exact_SAC_payment_sum (a r : R) (d : D) (k : nat) : forall (i : nat) (b acc : R),
  fold_left add (map payment (SAC_loop (Some a) (Some r) d i (Some b) k)) (Some acc)
  = Some (acc + INR k * a + r * (INR k * b - a * (INR k * (INR k - 1) / 2))).
Proof.
  induction k as [|k IH]; intros i b acc.
  - cbn. f_equal. lra.
  - cbn [SAC_loop map fold_left payment].
    cbn [add sub mul exact_number lift2]. rewrite IH, S_INR. f_equal. field.
Qed.

(** In exact arithmetic, for principal > 0, termMonths n >= 1 and a monthly
    rate r = annualRate / 12: the interest fields of the SAC schedule sum to
    principal * r * (n + 1) / 2, the payment fields to the principal plus
    that interest, and when annualRate > 0 every payment is smaller than the
    one before. *)
Theorem SAC_total_interest (P rate : R) (n : nat) (d : D) :
  0 < P -> (1 <= n)%nat ->
  let table := generateSACTable (Some P) (Some rate) n d in
  sum (map interest table) = Some (P * (rate / 12) * (INR n + 1) / 2) /\
  sum (map payment table) = Some (P + P * (rate / 12) * (INR n + 1) / 2) /\
  (0 < rate ->
   forall j row row', nth_error table j = Some row ->
     nth_error table (S j) = Some row' ->
     exists p p', payment row = Some p /\ payment row' = Some p' /\ p' < p).
Proof.
  intros HP Hn table.
  assert (Hn0 : INR n <> 0) by (apply not_0_INR; lia).
  split; [|split].
  - unfold table, sum. rewrite exact_generateSACTable by assumption.
    change (of_nat 0) with (Some 0). rewrite exact_SAC_interest_sum.
    f_equal. field. exact Hn0.
  - unfold table, sum. rewrite exact_generateSACTable by assumption.
    change (of_nat 0) with (Some 0). rewrite exact_SAC_payment_sum.
    f_equal. field. exact Hn0.
  - intros Hrate j row row' Hrow Hrow'.
    assert (Hlen : length table = n).
    { unfold table. rewrite exact_generateSACTable by assumption.
      apply SAC_loop_length. }
    assert (Hj : (S j < n)%nat) by (rewrite <- Hlen; apply nth_error_Some; congruence).
    unfold table in Hrow, Hrow'.
    rewrite exact_SAC_row in Hrow by (assumption || lia).
    rewrite exact_SAC_row in Hrow' by assumption.
    apply (f_equal (option_map payment)) in Hrow, Hrow'.
    cbn [option_map payment] in Hrow, Hrow'.
    exists (P / INR n + (P - INR j * (P / INR n)) * (rate / 12)),
           (P / INR n + (P - INR (S j) * (P / INR n)) * (rate / 12)).
    split; [congruence|]. split; [congruence|].
    rewrite S_INR.
    assert (Ha : 0 < P / INR n * (rate / 12)).
    { apply Rmult_lt_0_compat; [|lra].
      apply Rdiv_lt_0_compat; [assumption | apply lt_0_INR; lia]. }
    replace (P / INR n + (P - (INR j + 1) * (P / INR n)) * (rate / 12))
      with (P / INR n + (P - INR j * (P / INR n)) * (rate / 12)
            - P / INR n * (rate / 12)) by ring.
    lra.
Qed.

End SAC_cost.

Lemma SAC_total_interest_witness :
  (0 < 120000)%R /\ (1 <= 12)%nat /\
  sum (map interest (generateSACTable (Some 120000%R) (Some 0.12%R) 12 jan2024))
  = Some (120000 * (0.12 / 12) * (INR 12 + 1) / 2)%R.
Proof.
  split; [lra|]. split; [lia|].
  exact (proj1 (SAC_total_interest 120000 0.12 12 jan2024 ltac:(lra) ltac:(lia))).
Defined.

(** ** Depreciation *)

Section Depreciation_exact.
Local Open Scope R_scope.

(** In exact arithmetic, for a useful life lifeYears <> 0: the annual
    depreciation times lifeYears is the asset value, the monthly
    depreciation times 12 is the annual one, an asset used for its whole
    life has book value 0 and remaining life 0, and without yearsUsed the
    accumulated depreciation is 0 and the book value is the asset value. *)
Theorem depreciation_straight_line (value lifeYears : R) :
  lifeYears <> 0 ->
  let full := calculateDepreciation (Some value) (Some lifeYears)
                (Some (Some lifeYears)) in
  let fresh := calculateDepreciation (Some value) (Some lifeYears) None in
  (forall yearsUsed : option exactnum,
     mul (annualDepreciation
            (calculateDepreciation (Some value) (Some lifeYears) yearsUsed))
         (Some lifeYears) = Some value) /\
  mul (calculateMonthlyDepreciation (Some value) (Some lifeYears)) (of_nat 12)
    = annualDepreciation fresh /\
  bookValue full = Some 0 /\ remainingLife full = Some 0 /\
  accumulatedDepreciation fresh = Some 0 /\ bookValue fresh = Some value.
Proof.
  intros HL. cbv zeta. unfold calculateDepreciation, calculateMonthlyDepreciation.
  cbn [annualDepreciation accumulatedDepreciation bookValue remainingLife default].
  rewrite exact_div_some by exact HL.
  rewrite exact_of_nat, INR_12, exact_div_some by lra.
  change (of_nat 0) with (Some 0). cbn [mul sub exact_number lift2 Math_max].
  replace (lifeYears - lifeYears) with 0 by lra. rewrite Rmax_left by lra.
  repeat split; try intros _; f_equal; field; lra.
Qed.

(** In exact arithmetic, for value > 0 and 0 < lifeYears < yearsUsed: the
    book value is negative (it is not clamped), while the remaining life is
    clamped to 0. *)
Theorem depreciation_book_value_unclamped (value lifeYears yearsUsed : R) :
  0 < value -> 0 < lifeYears -> lifeYears < yearsUsed ->
  let r := calculateDepreciation (Some value) (Some lifeYears)
             (Some (Some yearsUsed)) in
  (exists b, bookValue r = Some b /\ b < 0) /\ remainingLife r = Some 0.
Proof.
  intros Hv HL Hu. cbv zeta. unfold calculateDepreciation.
  cbn [bookValue remainingLife default].
  rewrite exact_div_some by lra.
  change (of_nat 0) with (Some 0). cbn [mul sub exact_number lift2 Math_max].
  split.
  - eexists. split; [reflexivity|].
    replace (value - value / lifeYears * yearsUsed)
      with (- (value * ((yearsUsed - lifeYears) / lifeYears))) by (field; lra).
    assert (0 < value * ((yearsUsed - lifeYears) / lifeYears)); [|lra].
    apply Rmult_lt_0_compat; [lra|]. apply Rdiv_lt_0_compat; lra.
  - f_equal. apply Rmax_left. lra.
Qed.

End Depreciation_exact.

Lemma depreciation_straight_line_witness :
  (10 <> 0)%R /\
  bookValue (calculateDepreciation (Some 50000%R) (Some 10%R) (Some (Some 10%R)))
  = Some 0%R.
Proof.
  split; [lra|].
  exact (proj1 (proj2 (proj2
           (depreciation_straight_line 50000 10 ltac:(lra))))).
Defined.

Lemma depreciation_book_value_unclamped_witness :
  (0 < 50000)%R /\ (0 < 10)%R /\ (10 < 12)%R /\
  remainingLife (calculateDepreciation (Some 50000%R) (Some 10%R) (Some (Some 12%R)))
  = Some 0%R.
Proof.
  split; [lra|]. split; [lra|]. split; [lra|].
  exact (proj2 (depreciation_book_value_unclamped 50000 10 12
                  ltac:(lra) ltac:(lra) ltac:(lra))).
Defined.

Section Depreciation_binary64.
Local Open Scope float_scope.

Lemma float_div_zero_mul_zero (x : float) : x / 0 * 0 = nan.
Proof.
  apply Prim2SF_inj.
  rewrite FloatAxioms.mul_spec, FloatAxioms.div_spec.
  change (Prim2SF 0) with (S754_zero false). rewrite Prim2SF_nan.
  destruct (Prim2SF x) as [s|s| |s m e]; reflexivity.
Qed.

Lemma float_sub_nan_r (x : float) : x - nan = nan.
Proof.
  apply Prim2SF_inj. rewrite FloatAxioms.sub_spec, Prim2SF_nan.
  destruct (Prim2SF x) as [s|s| |s m e]; reflexivity.
Qed.

(** On binary64, a useful life of 0 is not guarded: whatever the asset
    value, and with no year used, the accumulated depreciation and the book
    value are NaN. *)
Theorem depreciation_zero_life (value : float) :
  accumulatedDepreciation (calculateDepreciation value 0 None) = nan /\
  bookValue (calculateDepreciation value 0 None) = nan /\
  accumulatedDepreciation (calculateDepreciation value 0 (Some 0)) = nan /\
  bookValue (calculateDepreciation value 0 (Some 0)) = nan.
Proof.
  unfold calculateDepreciation.
  cbn [accumulatedDepreciation bookValue default].
  change (of_nat 0) with 0.
  change (mul (div value 0) 0) with (value / 0 * 0).
  rewrite float_div_zero_mul_zero.
  change (sub value nan) with (value - nan). rewrite float_sub_nan_r.
  repeat split.
Qed.

End Depreciation_binary64.

(** ** Balance sheet *)

Section BalanceSheet_exact.
Local Open Scope R_scope.

Lemma INR_100 : INR 100 = 100.
Proof. rewrite INR_IZR_INZ. reflexivity. Qed.

Lemma exact_hundredths (n : nat) : hundredths n = Some (INR n / 100).
Proof.
  unfold hundredths. rewrite !exact_of_nat, INR_100. apply exact_div_some. lra.
Qed.

(** In exact arithmetic, for fields that are absent or numbers: total
    assets are current assets plus fixed assets net of their accumulated
    depreciation plus other non-current assets; liabilities plus equity are
    the sum of the nine liability and equity fields; and [balanced] is true
    exactly when the two differ by less than 0.01, in either direction. *)
Theorem balance_sheet_balanced (data : BalanceSheetData exactnum) :
  BalanceSheetData_numbers data ->
  let bs := calculateBalanceSheet data in
  exists c1 c2 c3 im da mv dm ao f ip fc op fl onc cs rs la : R,
    default0 (in_caixaEquivalentes data) = Some c1 /\
    default0 (in_contasReceber data) = Some c2 /\
    default0 (in_outrosAtivosCirculantes data) = Some c3 /\
    default0 (in_imoveis data) = Some im /\
    default0 (in_depreciacaoAcumulada data) = Some da /\
    default0 (in_moveisEquipamentos data) = Some mv /\
    default0 (in_depreciacaoMoveisAcumulada data) = Some dm /\
    default0 (in_outrosAtivosNaoCirculantes data) = Some ao /\
    default0 (in_fornecedores data) = Some f /\
    default0 (in_impostosPagar data) = Some ip /\
    default0 (in_financiamentosCurtoPrazo data) = Some fc /\
    default0 (in_outrosPassivosCirculantes data) = Some op /\
    default0 (in_financiamentosLongoPrazo data) = Some fl /\
    default0 (in_outrosPassivosNaoCirculantes data) = Some onc /\
    default0 (in_capitalSocial data) = Some cs /\
    default0 (in_reservas data) = Some rs /\
    default0 (in_lucrosAcumulados data) = Some la /\
    ativo_total (ativo bs) = Some (c1 + c2 + c3 + (im - da) + (mv - dm) + ao) /\
    passivoMaisPL bs = Some (f + ip + fc + op + fl + onc + cs + rs + la) /\
    (balanced bs = true <->
     Rabs ((c1 + c2 + c3 + (im - da) + (mv - dm) + ao)
           - (f + ip + fc + op + fl + onc + cs + rs + la)) < 0.01).
Proof.
  intros (H1 & H2 & H3 & H4 & H5 & H6 & H7 & H8 & H9 & H10 & H11 & H12 & H13
          & H14 & H15 & H16 & H17). cbv zeta.
  unfold calculateBalanceSheet.
  destruct (default0_number _ H1) as [c1 ->].
  destruct (default0_number _ H2) as [c2 ->].
  destruct (default0_number _ H3) as [c3 ->].
  destruct (default0_number _ H4) as [im ->].
  destruct (default0_number _ H5) as [da ->].
  destruct (default0_number _ H6) as [mv ->].
  destruct (default0_number _ H7) as [dm ->].
  destruct (default0_number _ H8) as [ao ->].
  destruct (default0_number _ H9) as [f ->].
  destruct (default0_number _ H10) as [ip ->].
  destruct (default0_number _ H11) as [fc ->].
  destruct (default0_number _ H12) as [op ->].
  destruct (default0_number _ H13) as [fl ->].
  destruct (default0_number _ H14) as [onc ->].
  destruct (default0_number _ H15) as [cs ->].
  destruct (default0_number _ H16) as [rs ->].
  destruct (default0_number _ H17) as [la ->].
  exists c1, c2, c3, im, da, mv, dm, ao, f, ip, fc, op, fl, onc, cs, rs, la.
  do 17 (split; [reflexivity|]).
  cbn [ativo ativo_total passivoMaisPL balanced].
  rewrite exact_hundredths.
  cbn [add sub exact_number lift2 Math_abs exact_math option_map gt exact_gt].
  split; [f_equal; lra|]. split; [f_equal; lra|].
  set (A := c1 + c2 + c3 + (im - da + (mv - dm) + ao)).
  set (L := f + ip + fc + op + (fl + onc) + (cs + rs + la)).
  replace (c1 + c2 + c3 + (im - da) + (mv - dm) + ao) with A by (unfold A; lra).
  replace (f + ip + fc + op + fl + onc + cs + rs + la) with L by (unfold L; lra).
  replace (INR 1 / 100) with 0.01 by (simpl; lra).
  destruct (Rlt_dec (Rabs (A - L)) 0.01) as [Hlt|Hge].
  - split; [intros _; exact Hlt | reflexivity].
  - split; [discriminate | intros Hlt; contradiction].
Qed.

End BalanceSheet_exact.

Lemma balance_sheet_balanced_witness :
  BalanceSheetData_numbers sample_balance_sheet /\
  balanced (calculateBalanceSheet sample_balance_sheet) = true.
Proof.
  assert (Hn : BalanceSheetData_numbers sample_balance_sheet).
  { unfold BalanceSheetData_numbers, is_number, sample_balance_sheet; cbn.
    repeat split; discriminate. }
  split; [exact Hn|].
  destruct (balance_sheet_balanced sample_balance_sheet Hn)
    as (c1 & c2 & c3 & im & da & mv & dm & ao & f & ip & fc & op & fl & onc
        & cs & rs & la & E1 & E2 & E3 & E4 & E5 & E6 & E7 & E8 & E9 & E10 & E11
        & E12 & E13 & E14 & E15 & E16 & E17 & _ & _ & Hbal).
  apply Hbal.
  cbn in E1, E2, E3, E4, E5, E6, E7, E8, E9, E10, E11, E12, E13, E14, E15, E16, E17.
  replace c1 with 1000%R by congruence. replace c2 with 0%R by congruence.
  replace c3 with 0%R by congruence. replace im with 500000%R by congruence.
  replace da with 20000%R by congruence. replace mv with 0%R by congruence.
  replace dm with 0%R by congruence. replace ao with 0%R by congruence.
  replace f with 0%R by congruence. replace ip with 0%R by congruence.
  replace fc with 0%R by congruence. replace op with 0%R by congruence.
  replace fl with 300000%R by congruence. replace onc with 0%R by congruence.
  replace cs with 181000%R by congruence. replace rs with 0%R by congruence.
  replace la with 0%R by congruence.
  match goal with |- (Rabs ?x < _)%R => replace x with 0%R by lra end.
  rewrite Rabs_R0. lra.
Defined.

(** ** Ratios that guard their denominator *)

Section Guarded_ratios.
Local Open Scope R_scope.

(** The two valuation multiples never divide by zero.  In exact
    arithmetic, for every enterprise value and every denominator x, both
    return a number m, with m = 0 when x = 0 and m * x = enterpriseValue
    otherwise.  On binary64 a denominator +0 or -0 gives 0 whatever the
    enterprise value. *)
Theorem EV_multiples_guarded :
  (forall ev x : R,
     exists m : R,
       calculateEVtoEBITDA (Some ev) (Some x) = Some m /\
       calculateEVtoRevenue (Some ev) (Some x) = Some m /\
       (x = 0 -> m = 0) /\ (x <> 0 -> m * x = ev)) /\
  (forall ev : float,
     calculateEVtoEBITDA ev 0%float = 0%float /\
     calculateEVtoEBITDA ev (-0)%float = 0%float /\
     calculateEVtoRevenue ev 0%float = 0%float /\
     calculateEVtoRevenue ev (-0)%float = 0%float).
Proof.
  split.
  - intros ev x. unfold calculateEVtoEBITDA, calculateEVtoRevenue.
    change (of_nat 0) with (Some 0).
    destruct (Req_dec_T x 0) as [-> | Hx].
    + rewrite exact_eq_true. exists 0. repeat split; intros; lra.
    + rewrite exact_eq_false, exact_div_some by exact Hx.
      exists (ev / x). repeat split; intros; [contradiction | field; exact Hx].
  - intros ev. repeat split.
Qed.

(** [Utils.percentageChange] never divides by zero.  In exact arithmetic it
    returns a number c for every old and new value: when old <> 0,
    old * (1 + c) = new; when old = 0, c is 1 for a positive new value and 0
    otherwise (a fall from 0 to a negative value reports no change); and an
    unchanged value reports 0. *)
Theorem percentageChange_total (old new : R) :
  (exists c : R,
     percentageChange (Some old) (Some new) = Some c /\
     (old <> 0 -> old * (1 + c) = new) /\
     (old = 0 -> 0 < new -> c = 1) /\
     (old = 0 -> new <= 0 -> c = 0)) /\
  percentageChange (Some old) (Some old) = Some 0.
Proof.
  unfold percentageChange. change (of_nat 0) with (Some 0).
  change (of_nat 1) with (Some 1).
  destruct (Req_dec_T old 0) as [-> | Hold].
  - rewrite exact_eq_true. split.
    + destruct (Rlt_dec 0 new) as [Hpos | Hneg].
      * rewrite exact_gt_true by exact Hpos. exists 1.
        repeat split; intros; lra.
      * rewrite exact_gt_false by lra. exists 0.
        repeat split; intros; lra.
    + rewrite exact_gt_false by lra. reflexivity.
  - rewrite exact_eq_false by exact Hold.
    cbn [sub exact_number lift2]. rewrite !exact_div_some by exact Hold. split.
    + exists ((new - old) / old).
      repeat split; intros; [field; exact Hold | contradiction | contradiction].
    + f_equal. field. exact Hold.
Qed.

(** [Utils.clamp] in exact arithmetic: the result c never exceeds max; when
    min <= max it lies between them, and a value already between them is
    returned unchanged; when min > max the result is max.  On binary64 a NaN
    value is returned as NaN. *)
Theorem clamp_bounds :
  (forall value lo hi : R,
     exists c : R,
       clamp (Some value) (Some lo) (Some hi) = Some c /\
       c <= hi /\
       (lo <= hi -> lo <= c) /\
       (lo <= value <= hi -> c = value) /\
       (hi < lo -> c = hi)) /\
  (forall lo hi : float, clamp nan lo hi = nan).
Proof.
  split.
  - intros value lo hi. exists (Rmin (Rmax value lo) hi).
    split; [reflexivity|]. split; [apply Rmin_r|].
    unfold Rmin, Rmax.
    repeat split; intros;
      destruct (Rle_dec value lo); destruct (Rle_dec _ hi); lra.
  - intros lo hi. reflexivity.
Qed.

End Guarded_ratios.

(** ** Projections *)

Section Projections.
Context {N : Type} `{Number N}.

Lemma array_get_last_app (l : list N) (x : N) :
  array_get (l ++ [x]) (Z.of_nat (length (l ++ [x])) - 1) = Some x.
Proof.
  unfold array_get. rewrite length_app. cbn [length].
  replace (Z.of_nat (length l + 1) - 1)%Z with (Z.of_nat (length l)) by lia.
  destruct (Z.ltb_spec (Z.of_nat (length l)) 0); [lia|].
  rewrite Nat2Z.id, nth_error_app2 by lia.
  now rewrite Nat.sub_diag.
Qed.

Lemma fold_project_step (rates : list N) : forall (l : list N) (x : N),
  fold_left project_step rates (l ++ [x]) = l ++ [x] ++ compound x rates.
Proof.
  induction rates as [|rate rest IH]; intros l x.
  - reflexivity.
  - cbn [fold_left]. unfold project_step at 2.
    rewrite array_get_last_app. cbn [to_number].
    rewrite IH. cbn [compound]. now rewrite <- app_assoc.
Qed.

Lemma projectRevenue_compound (base : N) (rates : list N) :
  projectRevenue base rates = compound base rates.
Proof.
  unfold projectRevenue.
  change [base] with ([] ++ [base]). now rewrite fold_project_step.
Qed.

Lemma compound_length (start : N) (rates : list N) :
  length (compound start rates) = length rates.
Proof.
  revert start; induction rates as [|rate rest IH]; intros start;
    [reflexivity | cbn; now rewrite IH].
Qed.

Lemma last_cons_default (x : N) (l : list N) (d d' : N) :
  last (x :: l) d = last (x :: l) d'.
Proof.
  revert x; induction l as [|y l IH]; intros x; [reflexivity|].
  change (last (x :: y :: l) d) with (last (y :: l) d).
  change (last (x :: y :: l) d') with (last (y :: l) d'). apply IH.
Qed.

Lemma compound_app (start : N) (l1 l2 : list N) :
  compound start (l1 ++ l2) =
  compound start l1 ++ compound (last (compound start l1) start) l2.
Proof.
  revert start; induction l1 as [|rate rest IH]; intros start; [reflexivity|].
  cbn [app compound]. rewrite IH. f_equal. f_equal.
  destruct rest as [|rate' rest']; [reflexivity|].
  cbn [compound].
  f_equal.
  match goal with
  | |- last (?v :: ?t) ?x = _ => exact (last_cons_default v t x start)
  end.
Qed.

Lemma compound_nth (rates : list N) : forall (start : N) (k : nat) (rate : N),
  nth_error rates k = Some rate ->
  nth_error (compound start rates) k =
  Some (mul (match k with
             | O => start
             | S k' => nth k' (compound start rates) start
             end) (add (of_nat 1) rate)).
Proof.
  induction rates as [|r rest IH]; intros start k rate Hk.
  - destruct k; discriminate.
  - destruct k as [|k]; cbn in Hk.
    + injection Hk as ->. reflexivity.
    + cbn [compound nth_error]. rewrite (IH _ _ _ Hk).
      destruct k as [|k]; [reflexivity|]. cbn [nth]. do 2 f_equal.
      apply nth_indep. rewrite compound_length.
      assert (S k < length rest)%nat by (apply nth_error_Some; congruence). lia.
Qed.

(** In any arithmetic, [projectRevenue] returns one value per rate and leaves
    the base out: an empty list of rates gives an empty list; the first value
    is base * (1 + rate) and every later one is the value before it times
    1 + its rate.  [projectExpenses] computes the same. *)
Theorem projectRevenue_compounds (base : N) (rates : list N) :
  length (projectRevenue base rates) = length rates /\
  projectRevenue base [] = [] /\
  (forall k rate, nth_error rates k = Some rate ->
     nth_error (projectRevenue base rates) k =
     Some (mul (match k with
                | O => base
                | S k' => nth k' (projectRevenue base rates) base
                end) (add (of_nat 1) rate))) /\
  projectExpenses base rates = projectRevenue base rates.
Proof.
  rewrite !projectRevenue_compound. split; [apply compound_length|].
  split; [reflexivity|]. split; [|reflexivity].
  intros k rate Hk. now apply compound_nth.
Qed.

(** In any arithmetic, projecting over two runs of rates one after the
    other is projecting over the first run and then continuing from its last
    value (from the base, when the first run is empty). *)
Theorem projectRevenue_app (base : N) (rates1 rates2 : list N) :
  projectRevenue base (rates1 ++ rates2) =
  projectRevenue base rates1
  ++ projectRevenue (last (projectRevenue base rates1) base) rates2.
Proof.
  rewrite !projectRevenue_compound. apply compound_app.
Qed.

End Projections.

Section Projections_exact.
Local Open Scope R_scope.

Lemma exact_compound_constant (g : R) (n : nat) : forall (b : R) (k : nat),
  (k < n)%nat ->
  nth_error (compound (Some b) (repeat (Some g) n)) k
  = Some (Some (b * (1 + g) ^ (S k))).
Proof.
  induction n as [|n IH]; intros b k Hk; [lia|].
  cbn [repeat compound]. change (of_nat 1) with (Some 1).
  cbn [add mul exact_number lift2].
  destruct k as [|k]; cbn [nth_error].
  - do 2 f_equal. simpl. ring.
  - rewrite IH by lia. do 2 f_equal. simpl. ring.
Qed.

(** In exact arithmetic, at a constant rate g the projection is compound
    growth: period k (counted from 1) is base * (1 + g)^k. *)
Theorem projectRevenue_constant_rate (base g : R) (n k : nat) :
  (1 <= k <= n)%nat ->
  nth_error (projectRevenue (Some base) (repeat (Some g) n)) (k - 1)
  = Some (Some (base * (1 + g) ^ k)).
Proof.
  intros Hk. rewrite projectRevenue_compound, exact_compound_constant by lia.
  now replace (S (k - 1)) with k by lia.
Qed.

End Projections_exact.

Lemma projectRevenue_constant_rate_witness :
  (1 <= 3 <= 5)%nat /\
  nth_error (projectRevenue (Some 1000%R) (repeat (Some 0.1%R) 5)) (3 - 1)
  = Some (Some (1000 * (1 + 0.1) ^ 3)%R).
Proof.
  split; [lia|]. apply (projectRevenue_constant_rate 1000 0.1 5 3). lia.
Defined.

(** ** Taxes *)

Section Taxes_exact.
Local Open Scope R_scope.

(** In exact arithmetic, with rates >= 0 the corporate tax is never
    negative: both components are numbers >= 0 and the total is their sum;
    a profit <= 0 is taxed 0 on both, a profit > 0 is taxed
    profit * (irRate + csllRate) in total.  With the rates left out a
    profit > 0 is taxed 15% and 9%. *)
Theorem corporate_tax_never_negative (profit irRate csllRate : R) :
  0 <= irRate -> 0 <= csllRate ->
  let t := calculateCorporateTax (Some profit) (Some (Some irRate))
             (Some (Some csllRate)) in
  (exists i c : R,
     tax_ir t = Some i /\ tax_csll t = Some c /\ tax_total t = Some (i + c) /\
     0 <= i /\ 0 <= c /\
     (profit <= 0 -> i = 0 /\ c = 0) /\
     (0 < profit -> i + c = profit * (irRate + csllRate))) /\
  (0 < profit ->
   calculateCorporateTax (Some profit) None None
   = mkCorporateTax (Some (profit * 0.15)) (Some (profit * 0.09))
       (Some (profit * 0.15 + profit * 0.09))).
Proof.
  intros Hir Hcs. cbv zeta. unfold calculateCorporateTax.
  cbn [default tax_ir tax_csll tax_total]. change (of_nat 0) with (Some 0).
  split.
  - destruct (Rlt_dec 0 profit) as [Hpos | Hneg].
    + rewrite exact_gt_true by exact Hpos.
      exists (profit * irRate), (profit * csllRate).
      repeat split; try reflexivity; intros; try lra.
      * apply Rmult_le_pos; lra.
      * apply Rmult_le_pos; lra.
    + rewrite exact_gt_false by lra. exists 0, 0.
      repeat split; try reflexivity; intros; lra.
  - intros Hpos. rewrite exact_gt_true by exact Hpos.
    rewrite !exact_hundredths. cbn [mul add exact_number lift2].
    replace (INR 15 / 100) with 0.15 by (rewrite INR_IZR_INZ; simpl; lra).
    replace (INR 9 / 100) with 0.09 by (rewrite INR_IZR_INZ; simpl; lra).
    reflexivity.
Qed.

End Taxes_exact.

Lemma corporate_tax_never_negative_witness :
  (0 <= 0.15)%R /\ (0 <= 0.09)%R /\
  calculateCorporateTax (Some 100000%R) None None
  = mkCorporateTax (Some (100000 * 0.15)%R) (Some (100000 * 0.09)%R)
      (Some (100000 * 0.15 + 100000 * 0.09)%R).
Proof.
  split; [lra|]. split; [lra|].
  exact (proj2 (corporate_tax_never_negative 100000 0.15 0.09
                  ltac:(lra) ltac:(lra)) ltac:(lra)).
Defined.

(** ** Calendar months *)

Section Calendar.
Local Open Scope Z_scope.

Lemma days_in_month_bounds (y m : Z) : 28 <= days_in_month y m <= 31.
Proof.
  unfold days_in_month.
  destruct (m =? 1); [destruct (leap_year y); lia|].
  destruct ((m =? 3) || (m =? 5) || (m =? 8) || (m =? 10))%bool; lia.
Qed.

Lemma days_in_december (y : Z) : days_in_month y 11 = 31.
Proof. reflexivity. Qed.

Lemma addMonths_small_day (d : CalendarDate) (k : Z) :
  valid_date d -> cd_day d <= 28 ->
  monthsBetween d (addMonths d k) = k /\
  cd_day (addMonths d k) = cd_day d /\
  valid_date (addMonths d k).
Proof.
  intros [Hm Hd] H28. unfold addMonths, monthsBetween.
  cbn [setMonth getMonth getFullYear calendar_date calendar_year].
  unfold calendar_setMonth.
  pose proof (days_in_month_bounds (cd_year d + (cd_month d + k) / 12)
                ((cd_month d + k) mod 12)) as Hlen.
  destruct (Z.leb_spec (cd_day d)
              (days_in_month (cd_year d + (cd_month d + k) / 12)
                 ((cd_month d + k) mod 12))) as [_|Hgt]; [|lia].
  cbn [cd_year cd_month cd_day]. unfold valid_date. cbn [cd_year cd_month cd_day].
  pose proof (Z.mod_pos_bound (cd_month d + k) 12 ltac:(lia)).
  pose proof (Z.div_mod (cd_month d + k) 12 ltac:(lia)).
  repeat split; lia.
Qed.

(** For a date that exists, on a day of the month up to 28, adding k months
    (k of either sign) keeps the day, gives a date that exists, and
    [monthsBetween] counts k months from the date to the result. *)
Theorem addMonths_monthsBetween (d : CalendarDate) (k : Z) :
  valid_date d -> cd_day d <= 28 ->
  monthsBetween d (addMonths d k) = k /\
  cd_day (addMonths d k) = cd_day d /\
  valid_date (addMonths d k).
Proof. apply addMonths_small_day. Qed.

(** For a date that exists whose day is past the end of the month k months
    later, [addMonths] does not stop in that month: the result is in the
    month after it, on the day left over, and [monthsBetween] counts k + 1
    months. *)
Theorem addMonths_overflow (d : CalendarDate) (k : Z) :
  valid_date d ->
  let y := cd_year d + (cd_month d + k) / 12 in
  let m := (cd_month d + k) mod 12 in
  days_in_month y m < cd_day d ->
  addMonths d k = mkCalendarDate y (m + 1) (cd_day d - days_in_month y m) /\
  monthsBetween d (addMonths d k) = k + 1 /\
  valid_date (addMonths d k).
Proof.
  intros [Hm Hd] y m Hover. unfold addMonths, monthsBetween.
  cbn [setMonth getMonth getFullYear calendar_date calendar_year].
  unfold calendar_setMonth. fold y m.
  pose proof (days_in_month_bounds (cd_year d) (cd_month d)) as Hlen0.
  pose proof (days_in_month_bounds y m) as Hlen.
  pose proof (days_in_month_bounds y (m + 1)) as Hlen1.
  destruct (Z.leb_spec (cd_day d) (days_in_month y m)) as [Hle|_]; [lia|].
  assert (Hm11 : m <> 11).
  { intros E. rewrite E, days_in_december in Hover. lia. }
  destruct (Z.eqb_spec m 11) as [E|_]; [contradiction|].
  cbn [cd_year cd_month cd_day]. unfold valid_date. cbn [cd_year cd_month cd_day].
  pose proof (Z.mod_pos_bound (cd_month d + k) 12 ltac:(lia)) as Hmod.
  pose proof (Z.div_mod (cd_month d + k) 12 ltac:(lia)) as Hdm.
  assert (Hy : y = cd_year d + (cd_month d + k) / 12) by reflexivity.
  assert (Hmn : m = (cd_month d + k) mod 12) by reflexivity.
  clearbody y m. repeat split; lia.
Qed.

(** For a date that exists, on a day of the month up to 28, adding months
    twice is adding their sum. *)
Theorem addMonths_addMonths (d : CalendarDate) (a b : Z) :
  valid_date d -> cd_day d <= 28 ->
  addMonths (addMonths d a) b = addMonths d (a + b).
Proof.
  intros [Hm Hd] H28. unfold addMonths.
  cbn [setMonth getMonth calendar_date]. unfold calendar_setMonth.
  pose proof (days_in_month_bounds (cd_year d + (cd_month d + a) / 12)
                ((cd_month d + a) mod 12)) as Hlen.
  destruct (Z.leb_spec (cd_day d)
              (days_in_month (cd_year d + (cd_month d + a) / 12)
                 ((cd_month d + a) mod 12))) as [_|Hgt]; [|lia].
  cbn [cd_year cd_month cd_day].
  assert (Hy : cd_year d + (cd_month d + a) / 12
               + ((cd_month d + a) mod 12 + b) / 12
               = cd_year d + (cd_month d + (a + b)) / 12).
  { Z.to_euclidean_division_equations. lia. }
  assert (Hmn : ((cd_month d + a) mod 12 + b) mod 12
                = (cd_month d + (a + b)) mod 12).
  { Z.to_euclidean_division_equations. lia. }
  rewrite Hy, Hmn. reflexivity.
Qed.

End Calendar.

Lemma addMonths_monthsBetween_witness :
  valid_date (mkCalendarDate 2024 10 15) /\ (15 <= 28)%Z /\
  monthsBetween (mkCalendarDate 2024 10 15)
    (addMonths (mkCalendarDate 2024 10 15) 3) = 3%Z.
Proof.
  assert (Hv : valid_date (mkCalendarDate 2024 10 15)).
  { unfold valid_date; cbn. lia. }
  split; [exact Hv|]. split; [lia|].
  exact (proj1 (addMonths_monthsBetween (mkCalendarDate 2024 10 15) 3 Hv
                  ltac:(cbn; lia))).
Defined.

(** 31 January 2023 plus one month is 3 March 2023. *)
Lemma addMonths_overflow_witness :
  valid_date (mkCalendarDate 2023 0 31) /\
  (days_in_month 2023 1 < 31)%Z /\
  addMonths (mkCalendarDate 2023 0 31) 1 = mkCalendarDate 2023 2 3.
Proof.
  assert (Hv : valid_date (mkCalendarDate 2023 0 31)).
  { unfold valid_date; cbn. lia. }
  split; [exact Hv|]. split; [cbn; lia|].
  exact (proj1 (addMonths_overflow (mkCalendarDate 2023 0 31) 1 Hv
                  ltac:(cbn; lia))).
Defined.

Lemma addMonths_addMonths_witness :
  valid_date (mkCalendarDate 2024 10 15) /\ (15 <= 28)%Z /\
  addMonths (addMonths (mkCalendarDate 2024 10 15) 5) (-7)
  = addMonths (mkCalendarDate 2024 10 15) (5 + -7).
Proof.
  assert (Hv : valid_date (mkCalendarDate 2024 10 15)).
  { unfold valid_date; cbn. lia. }
  split; [exact Hv|]. split; [lia|].
  exact (addMonths_addMonths (mkCalendarDate 2024 10 15) 5 (-7) Hv
           ltac:(cbn; lia)).
Defined.

(** ** Installment numbers and due dates *)

Section Schedule_dates.
Context {N : Type} `{Number N}.

(** In any arithmetic, for either schedule and a start date that exists on
    a day of the month up to 28: the schedule has one row per month of the
    term; row j + 1 has installment number j + 1 and falls due j months after
    the start date, on the same day of the month, so the first installment
    falls due on the start date itself. *)
Theorem schedule_numbers_and_dates (principal annualRate : N) (months : nat)
    (start : CalendarDate) (table : list (Row N CalendarDate)) :
  table = generateSACTable principal annualRate months start \/
  table = generatePRICETable principal annualRate months start ->
  valid_date start -> (cd_day start <= 28)%Z ->
  length table = months /\
  (forall j row, nth_error table j = Some row ->
     number row = S j /\
     date row = addMonths start (Z.of_nat j) /\
     monthsBetween start (date row) = Z.of_nat j /\
     cd_day (date row) = cd_day start) /\
  (forall row, nth_error table 0 = Some row -> date row = start).
Proof.
  intros Htable Hv H28.
  assert (Hlen : length table = months).
  { destruct Htable as [-> | ->];
      [apply SAC_loop_length | apply PRICE_loop_length]. }
  assert (Hrow : forall j row, nth_error table j = Some row ->
            number row = S j /\ date row = addMonths start (Z.of_nat j)).
  { intros j row Hnth.
    assert (Hj : (j < months)%nat).
    { rewrite <- Hlen. apply nth_error_Some. congruence. }
    destruct Htable as [-> | ->].
    - unfold generateSACTable in Hnth. rewrite SAC_loop_nth in Hnth by exact Hj.
      replace (Z.of_nat (1 + j) - 1)%Z with (Z.of_nat j) in Hnth by lia.
      injection Hnth as <-. cbn [number date]. split; reflexivity.
    - unfold generatePRICETable in Hnth. rewrite PRICE_loop_nth in Hnth by exact Hj.
      replace (Z.of_nat (1 + j) - 1)%Z with (Z.of_nat j) in Hnth by lia.
      injection Hnth as <-. cbn [number date]. split; reflexivity. }
  split; [exact Hlen|]. split.
  - intros j row Hnth. destruct (Hrow j row Hnth) as [Hnum Hdate].
    split; [exact Hnum|]. split; [exact Hdate|]. rewrite Hdate.
    destruct (addMonths_small_day start (Z.of_nat j) Hv H28) as (Hmb & Hday & _).
    split; assumption.
  - intros row Hnth. destruct (Hrow 0%nat row Hnth) as [_ ->].
    destruct start as [y m dd]. destruct Hv as [Hm Hd]. cbn in Hm, Hd, H28.
    unfold addMonths. cbn [setMonth getMonth calendar_date Z.of_nat].
    unfold calendar_setMonth. cbn [cd_year cd_month cd_day].
    rewrite Z.add_0_r, Z.mod_small, Z.div_small, Z.add_0_r by lia.
    destruct (Z.leb_spec dd (days_in_month y m)); [reflexivity | lia].
Qed.

End Schedule_dates.

Lemma schedule_numbers_and_dates_witness :
  valid_date (mkCalendarDate 2024 10 15) /\ (15 <= 28)%Z /\
  length (generateSACTable 120000%float 0.12%float 12 (mkCalendarDate 2024 10 15))
  = 12%nat.
Proof.
  assert (Hv : valid_date (mkCalendarDate 2024 10 15)).
  { unfold valid_date; cbn. lia. }
  split; [exact Hv|]. split; [lia|].
  exact (proj1 (schedule_numbers_and_dates 120000%float 0.12%float 12
                  (mkCalendarDate 2024 10 15) _ (or_introl eq_refl) Hv
                  ltac:(cbn; lia))).
Defined.

(** ** The two systems at a zero rate *)

Section Zero_rate_exact.
Context {D : Type} `{DateAPI D}.
Local Open Scope R_scope.

Lemma exact_zero_rate_loops (a : R) (d : D) (k : nat) : forall (i : nat) (b : R),
  PRICE_loop (Some a) (Some 0) d i (Some b) k
  = SAC_loop (Some a) (Some 0) d i (Some b) k.
Proof.
  induction k as [|k IH]; intros i b; [reflexivity|].
  cbn [PRICE_loop SAC_loop]. cbn [add sub mul exact_number lift2 Math_max].
  replace (b - (a - b * 0)) with (b - a) by lra.
  replace (a - b * 0) with a by lra.
  replace (a + b * 0) with a by lra.
  now rewrite IH.
Qed.

Lemma exact_zero_rate_rows (a : R) (d : D) (k : nat) : forall (i : nat) (b : R) row,
  In row (SAC_loop (Some a) (Some 0) d i (Some b) k) ->
  payment row = Some a /\ interest row = Some 0 /\ amortization row = Some a.
Proof.
  induction k as [|k IH]; intros i b row Hin; [contradiction|].
  destruct Hin as [<- | Hin].
  - cbn [payment interest amortization]. cbn [add sub mul exact_number lift2].
    repeat split; f_equal; lra.
  - cbn [add sub mul exact_number lift2] in Hin. exact (IH _ _ _ Hin).
Qed.

(** In exact arithmetic, at annualRate = 0 and for termMonths >= 1, the
    PRICE schedule and the SAC schedule are the same table: every row pays
    principal / termMonths, all of it principal. *)
Theorem schedules_coincide_at_zero_rate (P : R) (n : nat) (d : D) :
  (1 <= n)%nat ->
  generatePRICETable (Some P) (Some 0) n d = generateSACTable (Some P) (Some 0) n d /\
  (forall row, In row (generateSACTable (Some P) (Some 0) n d) ->
     payment row = Some (P / INR n) /\ interest row = Some 0 /\
     amortization row = Some (P / INR n)).
Proof.
  intros Hn.
  assert (Hsac : generateSACTable (Some P) (Some 0) n d
                 = SAC_loop (Some (P / INR n)) (Some 0) d 1 (Some P) n).
  { rewrite exact_generateSACTable by assumption. do 2 f_equal. lra. }
  split.
  - rewrite Hsac. unfold generatePRICETable.
    rewrite exact_PRICEPayment_zero_rate, exact_monthlyRate by assumption.
    replace (0 / 12) with 0 by lra. apply exact_zero_rate_loops.
  - rewrite Hsac. apply exact_zero_rate_rows.
Qed.

End Zero_rate_exact.

Lemma schedules_coincide_at_zero_rate_witness :
  (1 <= 10)%nat /\
  generatePRICETable (Some 100000%R) (Some 0%R) 10 jan2024
  = generateSACTable (Some 100000%R) (Some 0%R) 10 jan2024.
Proof.
  split; [lia|].
  exact (proj1 (schedules_coincide_at_zero_rate 100000 10 jan2024 ltac:(lia))).
Defined.

(** ** The terminal value outside discountRate > terminalGrowthRate *)

Section DCF_terminal.
Local Open Scope R_scope.

(** The terminal value of [calculateDCF] is not guarded.  In exact
    arithmetic: when the discount rate equals the terminal growth rate,
    whatever the cash flows, the terminal value and the enterprise value are
    not numbers (a division by zero); when the discount rate is below the
    growth rate, with a last cash flow X > 0 and growth > -1, the terminal
    value is a negative number. *)
Theorem calculateDCF_terminal_unguarded :
  (forall (cashFlows : list exactnum) (r : R),
     terminalValue (calculateDCF cashFlows (Some r) (Some r)) = None /\
     enterpriseValue (calculateDCF cashFlows (Some r) (Some r)) = None) /\
  (forall (cashFlows : list exactnum) (X r g : R),
     0 < X -> -1 < g -> r < g ->
     exists tv : R,
       terminalValue (calculateDCF (cashFlows ++ [Some X]) (Some r) (Some g))
       = Some tv /\ tv < 0).
Proof.
  split.
  - intros cashFlows r.
    assert (Htv : terminalValue (calculateDCF cashFlows (Some r) (Some r)) = None).
    { unfold calculateDCF. cbn [terminalValue sub exact_number lift2].
      destruct (mul _ _) as [x|]; [|reflexivity].
      cbn [div exact_number]. unfold exact_div.
      destruct (Req_dec_T (r - r) 0) as [_|Hne]; [reflexivity | exfalso; lra]. }
    split; [exact Htv|].
    unfold calculateDCF in *. cbn [terminalValue enterpriseValue] in *.
    rewrite Htv. cbn [div exact_number exact_div add lift2].
    now destruct (DCF_forEach _ _ _ _).
  - intros cashFlows X r g HX Hg Hr.
    unfold calculateDCF. cbn [terminalValue]. rewrite array_get_last_app.
    cbn [to_number]. rewrite exact_one_plus.
    cbn [mul sub exact_number lift2]. rewrite exact_div_some by lra.
    eexists. split; [reflexivity|].
    replace (X * (1 + g) / (r - g)) with (- (X * (1 + g) / (g - r)))
      by (field; lra).
    assert (0 < X * (1 + g) / (g - r)); [|lra].
    apply Rdiv_lt_0_compat; [apply Rmult_lt_0_compat|]; lra.
Qed.

End DCF_terminal.

Lemma calculateDCF_terminal_unguarded_witness :
  (0 < 1000)%R /\ (-1 < 0.05)%R /\ (0.03 < 0.05)%R /\
  exists tv : R,
    terminalValue (calculateDCF ([] ++ [Some 1000%R]) (Some 0.03%R) (Some 0.05%R))
    = Some tv /\ (tv < 0)%R.
Proof.
  split; [lra|]. split; [lra|]. split; [lra|].
  exact (proj2 calculateDCF_terminal_unguarded [] 1000%R 0.03%R 0.05%R
           ltac:(lra) ltac:(lra) ltac:(lra)).
Defined.

(** ** The decimal literals, and the tax scenario of the specification *)

Example hundredths_binary64 :
  hundredths 1 = 0.01%float /\ hundredths 5 = 0.05%float /\
  hundredths 9 = 0.09%float /\ hundredths 15 = 0.15%float.
Proof. vm_compute. repeat split; reflexivity. Qed.

(** Corporate tax at the default rates: a profit of 100000 pays 15000 and
    9000, 24000 in total; a loss of 5000 pays nothing. *)
Example corporate_tax_scenario :
  calculateCorporateTax 100000%float None None
  = mkCorporateTax 15000%float 9000%float 24000%float /\
  calculateCorporateTax (-5000)%float None None
  = mkCorporateTax 0%float 0%float 0%float.
Proof. vm_compute. split; reflexivity. Qed.

Lemma SAC_remaining_matches_schedule_witness :
  (0 < 120000)%R /\ (1 <= 12)%nat /\
  getSACRemainingBalance (Some 120000%R) 12 12 = Some 0%R.
Proof.
  split; [lra|]. split; [lia|].
  exact (proj2 (proj2 (SAC_remaining_matches_schedule 120000 0.12 12 jan2024
                         ltac:(lra) ltac:(lia))) 12%nat ltac:(lia)).
Defined.

Lemma PRICE_remaining_matches_schedule_witness :
  (0 < 100000)%R /\ (1 <= 12)%nat /\ ((1 + 0.12 / 12) ^ 12 <> 1)%R /\
  exists row,
    nth_error (generatePRICETable (Some 100000%R) (Some 0.12%R) 12 jan2024) (12 - 1)
    = Some row /\ balance row = Some 0%R.
Proof.
  assert (Hq : ((1 + 0.12 / 12) ^ 12 <> 1)%R).
  { apply Rgt_not_eq, Rlt_pow_R1; [lra | lia]. }
  split; [lra|]. split; [lia|]. split; [exact Hq|].
  exact (proj2 (PRICE_remaining_matches_schedule 100000 0.12 12 jan2024
                  ltac:(lra) ltac:(lia) ltac:(lra) ltac:(lra) Hq)).
Defined.
